(** * UPR report mapping: a shallow embedding of [upr-report-mapping.py]

    The script scans every sheet of a workspace whose columns cover those of
    a reference sheet, keeps the rows with a monetary value and a reference
    date in a past week, consolidates them per (Job Number, Foreman, Work
    Release), drops the groups the archive already holds and appends the
    rest to the archive.

    The embedding follows the script function by function.  Python values
    are a small tagged union, exceptions are an error monad, dictionaries
    are insertion-ordered association lists, sets of tuples are lists read
    through Python's [==].  What the script takes from libraries
    ([dateutil.parser.parse], [float] on strings, [repr] of floats, the
    pandas data-frame round trip, the Smartsheet client) is a parameter, and
    so is what varies with the interpreter and the data frame: whether
    [sum] compensates rounding errors, and whether the NaNs of the rows are
    one object. *)

From Stdlib Require Import ZArith List String Ascii Bool Lia QArith.
From Stdlib Require Import Floats DecimalString Permutation.
Import ListNotations.

Local Open Scope string_scope.
Local Open Scope list_scope.
Local Open Scope Z_scope.

Set Implicit Arguments.

(* ================================================================== *)
(** ** Exceptions *)

Inductive exn : Type :=
| TypeError
| ValueError
| OverflowError
| AttributeError
| UnboundLocalError
| ParserError
| ApiError.

Inductive result (A : Type) : Type :=
| Ok (a : A)
| Raise (e : exn).

Arguments Ok {A} a.
Arguments Raise {A} e.

Definition bind {A B} (r : result A) (k : A -> result B) : result B :=
  match r with
  | Ok a => k a
  | Raise e => Raise e
  end.

Notation "x <- c ;; k" := (bind c (fun x => k))
  (at level 61, c at next level, right associativity).

(** [try: c  except Exception: h] *)
Definition try_except {A} (c : result A) (h : exn -> A) : A :=
  match c with
  | Ok a => a
  | Raise e => h e
  end.

Definition is_ok {A} (r : result A) : bool :=
  match r with Ok _ => true | Raise _ => false end.

(* ================================================================== *)
(** ** Python values held by cells *)

Inductive value : Type :=
| VNone
| VBool (b : bool)
| VInt (z : Z)
| VFloat (f : float)
| VStr (s : string).

(** The exact value of a number: Python compares ints and floats by value,
    never through a rounding conversion. *)
Inductive xnum : Type :=
| XNaN
| XNegInf
| XFin (q : Q)
| XPosInf.

Definition dyadic (s : bool) (m : positive) (e : Z) : Q :=
  let n := if s then Z.neg m else Z.pos m in
  if 0 <=? e then inject_Z (n * 2 ^ e)
  else Qmake n (Z.to_pos (2 ^ (- e))).

Definition float_exact (f : float) : xnum :=
  match Prim2SF f with
  | S754_nan => XNaN
  | S754_infinity true => XNegInf
  | S754_infinity false => XPosInf
  | S754_zero _ => XFin 0
  | S754_finite s m e => XFin (dyadic s m e)
  end.

Definition num_of (v : value) : option xnum :=
  match v with
  | VBool b => Some (XFin (if b then 1 else 0))
  | VInt z => Some (XFin (inject_Z z))
  | VFloat f => Some (float_exact f)
  | VNone | VStr _ => None
  end.

Definition Qltb (a b : Q) : bool :=
  match Qcompare a b with Lt => true | _ => false end.

Definition xnum_eqb (a b : xnum) : bool :=
  match a, b with
  | XFin p, XFin q => Qeq_bool p q
  | XNegInf, XNegInf => true
  | XPosInf, XPosInf => true
  | _, _ => false
  end.

(** [a > b] on exact values; every comparison with NaN is false. *)
Definition xnum_gtb (a b : xnum) : bool :=
  match a, b with
  | XNaN, _ | _, XNaN => false
  | XPosInf, XPosInf => false
  | XPosInf, _ => true
  | _, XPosInf => false
  | XNegInf, _ => false
  | XFin _, XNegInf => true
  | XFin p, XFin q => Qltb q p
  end.

(** Python [==]: a float NaN differs from every value, itself included. *)
Definition py_eq (a b : value) : bool :=
  match a, b with
  | VNone, VNone => true
  | VStr s, VStr t => String.eqb s t
  | _, _ =>
      match num_of a, num_of b with
      | Some x, Some y => xnum_eqb x y
      | _, _ => false
      end
  end.

(** Python [>]: numbers with numbers, strings with strings (by code point,
    which on UTF-8 bytes is the order of [String.compare]); anything else
    raises [TypeError]. *)
Definition py_gt (a b : value) : result bool :=
  match a, b with
  | VStr s, VStr t => Ok (String.ltb t s)
  | _, _ =>
      match num_of a, num_of b with
      | Some x, Some y => Ok (xnum_gtb x y)
      | _, _ => Raise TypeError
      end
  end.

(** Truth value of an object: [None], [False], zero and the empty string
    are false. *)
Definition truthy (v : value) : bool :=
  match v with
  | VNone => false
  | VStr s => negb (String.eqb s "")
  | _ =>
      match num_of v with
      | Some x => negb (xnum_eqb x (XFin 0))
      | None => false
      end
  end.

(** Equality of tuples, component by component. *)
Fixpoint tuple_eq (a b : list value) : bool :=
  match a, b with
  | [], [] => true
  | x :: a', y :: b' => py_eq x y && tuple_eq a' b'
  | _, _ => false
  end.

(** [key in keys] for a set of tuples.  The set is built from the cells of
    the archive, which the service sends as JSON, and the key from a
    consolidated record: no component of the one is the object of a
    component of the other, and [==] decides. *)
Definition key_in (key : list value) (keys : list (list value)) : bool :=
  existsb (tuple_eq key) keys.

Definition is_nan_value (v : value) : bool :=
  match v with
  | VFloat f => PrimFloat.is_nan f
  | _ => false
  end.

(** What a dictionary lookup compares keys with: [a is b or a == b].  The
    two differ only on a value that does not equal itself, a float NaN;
    [shared_nan] tells whether the NaNs at hand are one object, as
    [numpy.nan] is, or an object each. *)
Definition dict_key_eq (shared_nan : bool) (a b : value) : bool :=
  py_eq a b || (shared_nan && is_nan_value a && is_nan_value b).

Fixpoint tuple_key_eq (shared_nan : bool) (a b : list value) : bool :=
  match a, b with
  | [], [] => true
  | x :: a', y :: b' => dict_key_eq shared_nan x y && tuple_key_eq shared_nan a' b'
  | _, _ => false
  end.

(** [int] to [float]: round to nearest even, [OverflowError] past the
    largest double. *)
Definition float_of_Z (z : Z) : float :=
  SF2Prim (binary_normalize prec emax z 0 false).

Definition float_of_int (z : Z) : result float :=
  let f := float_of_Z z in
  if PrimFloat.is_infinity f then Raise OverflowError else Ok f.

(** The sort of a value that [max] can compare. *)
Inductive sort : Type := SNum | SStr.

Definition sort_of (v : value) : option sort :=
  match v with
  | VNone => None
  | VStr _ => Some SStr
  | _ => Some SNum
  end.

(* ================================================================== *)
(** ** Dictionaries: insertion-ordered, one binding per key *)

Section Dict.
Context {K V : Type}.
Variable keqb : K -> K -> bool.

Definition dict := list (K * V).

Fixpoint dict_get (d : dict) (k : K) : option V :=
  match d with
  | [] => None
  | (k', v) :: d' => if keqb k k' then Some v else dict_get d' k
  end.

(** [d.get(k, default)] *)
Definition dict_get_or (d : dict) (k : K) (default : V) : V :=
  match dict_get d k with
  | Some v => v
  | None => default
  end.

(** [d[k] = v]: an existing key keeps its place. *)
Fixpoint dict_set (d : dict) (k : K) (v : V) : dict :=
  match d with
  | [] => [(k, v)]
  | (k', v') :: d' =>
      if keqb k k' then (k', v) :: d' else (k', v') :: dict_set d' k v
  end.

(** [k in d] *)
Definition dict_mem (d : dict) (k : K) : bool :=
  match dict_get d k with Some _ => true | None => false end.

(** [{k: v for (k, v) in kvs}] *)
Definition dict_of (kvs : list (K * V)) : dict :=
  fold_left (fun d kv => dict_set d (fst kv) (snd kv)) kvs [].
End Dict.

(** A row or a record: column name to value. *)
Definition record := list (string * value).

Definition rget (r : record) (col : string) (default : value) : value :=
  dict_get_or String.eqb r col default.

(* ================================================================== *)
(** ** Dates and times ([datetime.datetime]) *)

(** A [datetime] by its proleptic Gregorian day number ([toordinal()]:
    day 1 is 0001-01-01, a Monday), the microseconds since midnight and,
    when it is aware, its UTC offset in microseconds. *)
Record datetime : Type := mk_datetime {
  ordinal : Z;
  micros : Z;
  utcoffset : option Z
}.

Definition MAXORDINAL : Z := 3652059.
Definition DAY_MICROS : Z := 86400000000.

(** [weekday()]: Monday is 0, Sunday is 6. *)
Definition weekday (d : datetime) : Z := (ordinal d + 6) mod 7.

(** [d - timedelta(days=n)] *)
Definition sub_days (d : datetime) (n : Z) : result datetime :=
  let o := ordinal d - n in
  if (0 <? o) && (o <=? MAXORDINAL)
  then Ok (mk_datetime o (micros d) (utcoffset d))
  else Raise OverflowError.

Definition instant (d : datetime) (off : Z) : Z :=
  ordinal d * DAY_MICROS + micros d - off.

(** [a < b]: naive with naive by date and time, aware with aware by
    instant; mixing the two raises [TypeError]. *)
Definition dt_lt (a b : datetime) : result bool :=
  match utcoffset a, utcoffset b with
  | None, None => Ok (instant a 0 <? instant b 0)
  | Some oa, Some ob => Ok (instant a oa <? instant b ob)
  | _, _ => Raise TypeError
  end.

(** Calendar dates to day numbers, as [date(y, m, d).toordinal()]. *)
Definition is_leap (y : Z) : bool :=
  (y mod 4 =? 0) && (negb (y mod 100 =? 0) || (y mod 400 =? 0)).

Definition days_before_year (year : Z) : Z :=
  let y := year - 1 in y * 365 + y / 4 - y / 100 + y / 400.

Definition days_before_month (year month : Z) : Z :=
  nth (Z.to_nat month)
    [0; 0; 31; 59; 90; 120; 151; 181; 212; 243; 273; 304; 334; 365] 0
  + (if (2 <? month) && is_leap year then 1 else 0).

Definition ymd2ord (year month day : Z) : Z :=
  days_before_year year + days_before_month year month + day.

(** A naive [datetime(y, m, d, hh, mm, ss)]. *)
Definition naive (y m d hh mm ss : Z) : datetime :=
  mk_datetime (ymd2ord y m d) (((hh * 60 + mm) * 60 + ss) * 1000000) None.

Definition midnight (d : datetime) : datetime :=
  mk_datetime (ordinal d) 0 (utcoffset d).

(* ================================================================== *)
(** ** The Smartsheet client *)

Record column : Type := mk_column { col_id : Z; col_title : string }.
Record cell : Type := mk_cell { column_id : Z; cell_value : value }.
Definition row := list cell.
Record sheet : Type := mk_sheet { columns : list column; rows : list row }.
Record sheet_info : Type := mk_info { sheet_id : Z; sheet_name : string }.

(** The remote workspace as one run sees it.  [list_pages] holds the
    successive answers to [Sheets.list_sheets(page_size=100, page=1, 2, ...)];
    past its end the service answers with no data. *)
Record client : Type := mk_client {
  get_sheet : Z -> result sheet;
  list_pages : list (result (list sheet_info));
  add_rows : Z -> list row -> result nat
}.

(** [Row.get_column(column_id)]: the first cell of that column, if any. *)
Definition get_column (r : row) (cid : Z) : option cell :=
  find (fun c => column_id c =? cid) r.

(* ================================================================== *)
(** ** Configuration *)

Record config : Type := mk_config {
  API_TOKEN : string;
  REFERENCE_SHEET_ID : Z;
  ARCHIVE_SHEET_ID : Z;
  DRY_RUN : bool;
  connect : string -> result client
}.

Definition TOKEN_PLACEHOLDER : string := "YOUR_SMARTSHEET_API_TOKEN_HERE".

(** Destination column to source column. *)
Definition COLUMN_MAP : list (string * string) :=
  [ ("PROMAX", "Units Total Price");
    ("Job Number", "Job #");
    ("Work Order", "Work Order");
    ("Work Release", "Work Release #");
    ("Start Date", "Start Date");
    ("Scope Number", "Scope Number");
    ("Foreman", "Foreman");
    ("Location", "Location");
    ("Crew", "Crew");
    ("% of Completion", "% of Completion");
    ("Weekly Reference Logged Date", "Weekly Reference Logged Date");
    ("Expected Time of Completion", "");
    ("Snapshot Date", "Snapshot Date");
    ("Work Request #", "Work Request #") ].

Definition column_map (dest : string) : string :=
  dict_get_or String.eqb COLUMN_MAP dest "".

(** Destination column to archive column, where the two differ. *)
Definition archive_col_mapping : list (string * string) :=
  [ ("Work Request #", "Work Request");
    ("Work Release", "Work Release #") ].

Definition archive_col_name (col : string) : string :=
  dict_get_or String.eqb archive_col_mapping col col.

Definition unique_key_cols : list string :=
  ["Job Number"; "Foreman"; "Work Release"].

Definition page_size : nat := 100.

(* ================================================================== *)
(** ** Helper functions *)

Definition titles (s : sheet) : list string := map col_title (columns s).

Definition set_mem (x : string) (s : list string) : bool :=
  existsb (String.eqb x) s.

(** [a.issubset(b)] *)
Definition issubset (a b : list string) : bool :=
  forallb (fun x => set_mem x b) a.

(** The paging loop of [get_matching_sheets]. *)
Fixpoint fetch_all_sheets (pages : list (result (list sheet_info)))
    (all_sheets : list sheet_info) : list sheet_info :=
  match pages with
  | [] => all_sheets
  | Raise _ :: _ => all_sheets
  | Ok [] :: _ => all_sheets
  | Ok data :: rest =>
      let all_sheets := all_sheets ++ data in
      if (List.length data <? page_size)%nat then all_sheets
      else fetch_all_sheets rest all_sheets
  end.

(** The matching loop of [get_matching_sheets]. *)
Fixpoint match_sheets (ss : client) (ref_col_set : list string)
    (all_sheets : list sheet_info) : list sheet_info :=
  match all_sheets with
  | [] => []
  | s :: rest =>
      match get_sheet ss (sheet_id s) with
      | Ok this_sheet =>
          if issubset ref_col_set (titles this_sheet)
          then mk_info (sheet_id s) (sheet_name s) :: match_sheets ss ref_col_set rest
          else match_sheets ss ref_col_set rest
      | Raise _ => match_sheets ss ref_col_set rest
      end
  end.

Definition get_matching_sheets (ss : client) (reference_sheet_id : Z)
    : result (list sheet_info) :=
  ref_sheet <- get_sheet ss reference_sheet_id ;;
  let ref_col_set := titles ref_sheet in
  let all_sheets := fetch_all_sheets (list_pages ss) [] in
  Ok (match_sheets ss ref_col_set all_sheets).

Definition row_dict_of (col_map : list (Z * string)) (r : row) : record :=
  fold_left
    (fun row_dict c =>
       match dict_get Z.eqb col_map (column_id c) with
       | Some col_name =>
           if negb (String.eqb col_name "")
           then dict_set String.eqb row_dict col_name (cell_value c)
           else row_dict
       | None => row_dict
       end)
    r [].

Definition get_sheet_data (ss : client) (sid : Z) : result (list record) :=
  sh <- get_sheet ss sid ;;
  let col_map := dict_of Z.eqb (map (fun c => (col_id c, col_title c)) (columns sh)) in
  Ok (map (row_dict_of col_map) (rows sh)).

(** The key of one archive row over [effective_key_cols]; a row without a
    cell for one of the columns raises ([None.value]). *)
Fixpoint archive_row_key (col_map : list (string * Z)) (r : row)
    (cols : list string) : result (list value) :=
  match cols with
  | [] => Ok []
  | col :: cols' =>
      value <-
        match dict_get String.eqb col_map (archive_col_name col) with
        | Some cid =>
            match get_column r cid with
            | Some c => Ok (cell_value c)
            | None => Raise AttributeError
            end
        | None => Ok VNone
        end ;;
      key_values <- archive_row_key col_map r cols' ;;
      Ok (value :: key_values)
  end.

Definition set_add (key : list value) (keys : list (list value))
    : list (list value) :=
  if key_in key keys then keys else keys ++ [key].

Definition archive_keys_of (col_map : list (string * Z)) (rs : list row)
    (effective_key_cols : list string) : list (list value) :=
  fold_left
    (fun keys r =>
       match archive_row_key col_map r effective_key_cols with
       | Ok key => set_add key keys
       | Raise _ => keys
       end)
    rs [].

Definition title_map (s : sheet) : list (string * Z) :=
  dict_of String.eqb (map (fun c => (col_title c, col_id c)) (columns s)).

Definition available_cols_of (col_map : list (string * Z))
    (key_cols : list string) : list string :=
  filter (fun col => dict_mem String.eqb col_map (archive_col_name col)) key_cols.

Definition effective_cols_of (col_map : list (string * Z))
    (key_cols : list string) : list string :=
  match available_cols_of col_map key_cols with
  | [] => key_cols
  | available_cols => available_cols
  end.

Definition get_archive_existing_keys (ss : client) (archive_sheet_id : Z)
    (key_cols : list string) : list (list value) * list string :=
  try_except
    (sh <- get_sheet ss archive_sheet_id ;;
     let col_map := title_map sh in
     let effective_key_cols := effective_cols_of col_map key_cols in
     Ok (archive_keys_of col_map (rows sh) effective_key_cols, effective_key_cols))
    (fun _ => ([], key_cols)).

(* ================================================================== *)
(** ** The pipeline *)

Inductive message : Type :=
| MsgTokenUnset
| MsgConnectError
| MsgDiscoveryError
| MsgNoRecords
| MsgNoNewCombinations
| MsgDryRun (n : nat)
| MsgAdded (n : nat)
| MsgWriteError
| MsgCompleted.

(** What a run does to the archive and the messages that end it. *)
Inductive event : Type :=
| EvArchiveKeysRead                  (* [get_archive_existing_keys] is called *)
| EvArchiveOpenForWrite              (* [get_sheet(ARCHIVE_SHEET_ID)] of step 5 *)
| EvAddRows (new_sheet_rows : list row)
| EvSay (m : message).

(** The counters and the records of step 2. *)
Record tally : Type := mk_tally {
  records : list record;
  total_rows_processed : nat;
  rows_with_promax : nat;
  rows_with_past_dates : nat;
  rows_meeting_criteria : nat
}.

Definition tally0 : tally := mk_tally [] 0 0 0 0.

Section Pipeline.

(** [dateutil.parser.parse] *)
Variable parse_date : string -> result datetime.
(** [float] of a string *)
Variable parse_float : string -> result float.
(** [repr] of a float *)
Variable repr_float : float -> string.
(** The rows [pd.DataFrame(records).iterrows()] yields, in order. *)
Variable iterrows : list record -> list record.
(** Whether the NaNs among the values of those rows are one object. *)
Variable shared_nan : bool.
(** Whether [sum] compensates rounding errors, as CPython does from 3.12. *)
Variable compensated : bool.

(** [str(v)] *)
Definition py_str (v : value) : string :=
  match v with
  | VNone => "None"
  | VBool true => "True"
  | VBool false => "False"
  | VInt z => NilZero.string_of_int (Z.to_int z)
  | VFloat f => repr_float f
  | VStr s => s
  end.

(** [float(v)] *)
Definition py_float (v : value) : result float :=
  match v with
  | VNone => Raise TypeError
  | VBool b => Ok (if b then 1%float else 0%float)
  | VInt z => float_of_int z
  | VFloat f => Ok f
  | VStr s => parse_float s
  end.

(** [week_start]: the argument is a [datetime] or anything else, which is
    then parsed from its [str]. *)
Definition week_start (date_obj : datetime + value) : result datetime :=
  date_obj <- match date_obj with
              | inl d => Ok d
              | inr v => parse_date (py_str v)
              end ;;
  let days_since_sunday := (weekday date_obj + 1) mod 7 in
  sub_days date_obj days_since_sunday.

(** [is_past_week], with [today] the reading of [datetime.now()]. *)
Definition is_past_week (today : datetime) (date_str : value) : result bool :=
  if negb (truthy date_str) then Ok false
  else
    match parse_date (py_str date_str) with
    | Raise _ => Ok false
    | Ok date_val =>
        current_week_start <- week_start (inl today) ;;
        dt_lt date_val current_week_start
    end.

(** The statistic [has_promax] of the row loop. *)
Definition has_promax (promax_val : value) : bool :=
  match promax_val with
  | VNone => false
  | _ => try_except (f <- py_float promax_val ;; py_gt (VFloat f) (VInt 0))
                    (fun _ => false)
  end.

(** The output row of a source row. *)
Definition out_row_of (r : record) : record :=
  fold_left
    (fun out_row ds =>
       let '(dest_col, src_col) := ds in
       dict_set String.eqb out_row dest_col
         (if negb (String.eqb src_col "") then rget r src_col (VStr "")
          else VStr ""))
    COLUMN_MAP [].

(** Whether the row loop reaches [records.append(out_row)] for a row. *)
Definition row_kept (today : datetime) (r : record) : result bool :=
  let promax_val := rget r (column_map "PROMAX") VNone in
  let week_ending := rget r (column_map "Weekly Reference Logged Date") VNone in
  has_past_date <- is_past_week today week_ending ;;
  if negb (truthy promax_val) || negb has_past_date then Ok false
  else
    Ok (try_except
          (f <- py_float promax_val ;;
           Ok (negb (py_eq (VFloat f) (VInt 0))))
          (fun _ => false)).

(** One turn of the row loop; an exception leaves the tally as it was
    when it was raised. *)
Definition process_row (today : datetime) (t : tally) (r : record)
    : tally * option exn :=
  let promax_val := rget r (column_map "PROMAX") VNone in
  let t1 := if has_promax promax_val
            then mk_tally (records t) (total_rows_processed t)
                   (S (rows_with_promax t)) (rows_with_past_dates t)
                   (rows_meeting_criteria t)
            else t in
  let week_ending := rget r (column_map "Weekly Reference Logged Date") VNone in
  match is_past_week today week_ending with
  | Raise e => (t1, Some e)
  | Ok has_past_date =>
      let t2 := if has_past_date
                then mk_tally (records t1) (total_rows_processed t1)
                       (rows_with_promax t1) (S (rows_with_past_dates t1))
                       (rows_meeting_criteria t1)
                else t1 in
      match row_kept today r with
      | Ok true =>
          (mk_tally (records t2 ++ [out_row_of r]) (total_rows_processed t2)
             (rows_with_promax t2) (rows_with_past_dates t2)
             (S (rows_meeting_criteria t2)), None)
      | Ok false => (t2, None)
      | Raise e => (t2, Some e)
      end
  end.

Fixpoint process_rows (today : datetime) (t : tally) (rs : list record)
    : tally * option exn :=
  match rs with
  | [] => (t, None)
  | r :: rs' =>
      match process_row today t r with
      | (t', None) => process_rows today t' rs'
      | (t', Some e) => (t', Some e)
      end
  end.

(** The body of the loop over the matching sheets; whatever a sheet
    raises is reported and the loop goes on. *)
Definition process_sheet (ss : client) (today : datetime) (t : tally)
    (s : sheet_info) : tally :=
  match get_sheet_data ss (sheet_id s) with
  | Raise _ => t
  | Ok rs =>
      let t := mk_tally (records t) (total_rows_processed t + List.length rs)
                 (rows_with_promax t) (rows_with_past_dates t)
                 (rows_meeting_criteria t) in
      fst (process_rows today t rs)
  end.

Definition pull_and_filter (ss : client) (today : datetime)
    (matching_sheets : list sheet_info) : tally :=
  fold_left (process_sheet ss today) matching_sheets tally0.

(** *** Step 3: grouping and consolidation *)

Definition key_of (cols : list string) (rec : record) : list value :=
  map (fun col => rget rec col VNone) cols.

(** One turn of the grouping loop.  The dictionary is searched for a key
    that is the same object as, or equals, the key of the record, component
    by component; when there is none the key opens a group, and the lookup
    that follows finds that very key object again. *)
Definition group_add (grouped : list (list value * list record))
    (rec : record) : list (list value * list record) :=
  let key := key_of unique_key_cols rec in
  match dict_get (tuple_key_eq shared_nan) grouped key with
  | Some group => dict_set (tuple_key_eq shared_nan) grouped key (group ++ [rec])
  | None => grouped ++ [(key, [rec])]
  end.

Definition group_records (rs : list record)
    : list (list value * list record) :=
  fold_left group_add rs [].

(** The operands of [sum(float(r.get('PROMAX', 0)) for r in group_records
    if r.get('PROMAX'))]. *)
Fixpoint promax_terms (group : list record) : result (list float) :=
  match group with
  | [] => Ok []
  | r :: group' =>
      if truthy (rget r "PROMAX" VNone)
      then f <- py_float (rget r "PROMAX" (VInt 0)) ;;
           fs <- promax_terms group' ;;
           Ok (f :: fs)
      else promax_terms group'
  end.

(** The float loop of [sum] from CPython 3.12 on: the partial sum
    [f_result] and the compensation [c] of its rounding errors, which is
    added at the end when it is neither zero nor infinite nor NaN. *)
Fixpoint compensated_sum (xs : list float) (f_result c : float) : float :=
  match xs with
  | [] =>
      if negb (PrimFloat.eqb c 0) && negb (PrimFloat.is_nan c)
         && negb (PrimFloat.is_infinity c)
      then PrimFloat.add f_result c
      else f_result
  | x :: xs' =>
      let t := PrimFloat.add f_result x in
      let c :=
        if PrimFloat.leb (PrimFloat.abs x) (PrimFloat.abs f_result)
        then PrimFloat.add c (PrimFloat.add (PrimFloat.sub f_result t) x)
        else PrimFloat.add c (PrimFloat.add (PrimFloat.sub x t) f_result) in
      compensated_sum xs' t c
  end.

(** [sum] of floats: the integer 0 when there is nothing to add; else the
    first float is added to 0 and the others are added to that, one by one
    from the left, with the compensation where the interpreter has it. *)
Definition py_sum (fs : list float) : value :=
  match fs with
  | [] => VInt 0
  | x :: fs' =>
      let first := PrimFloat.add 0 x in
      VFloat (if compensated then compensated_sum fs' first 0
              else fold_left PrimFloat.add fs' first)
  end.

Definition total_promax (group : list record) : result value :=
  fs <- promax_terms group ;;
  Ok (py_sum fs).

Definition date_key (x : record) : value :=
  rget x "Weekly Reference Logged Date" (VStr "").

(** The loop of [max(iterable, key=...)]: a later item replaces the
    running maximum only when its key is greater. *)
Fixpoint max_loop (key : record -> value) (items : list record)
    (maxitem : record) (maxval : value) : result record :=
  match items with
  | [] => Ok maxitem
  | item :: items' =>
      let val := key item in
      gt <- py_gt val maxval ;;
      if gt : bool then max_loop key items' item val
      else max_loop key items' maxitem maxval
  end.

Definition py_max (key : record -> value) (items : list record)
    : result record :=
  match items with
  | [] => Raise ValueError
  | item :: items' => max_loop key items' item (key item)
  end.

Definition copied_fields : list string :=
  [ "Work Order"; "Start Date"; "Scope Number"; "Location"; "Crew";
    "% of Completion"; "Weekly Reference Logged Date";
    "Expected Time of Completion"; "Snapshot Date"; "Work Request #" ].

Definition consolidate (key : list value) (group : list record)
    : result record :=
  match key with
  | [job_num; foreman; work_release] =>
      total <- total_promax group ;;
      latest_record <- py_max date_key group ;;
      Ok ([ ("PROMAX", total);
            ("Job Number", job_num);
            ("Foreman", foreman);
            ("Work Release", work_release) ]
          ++ map (fun col => (col, rget latest_record col (VStr "")))
               copied_fields)
  | _ => Raise ValueError
  end.

Fixpoint consolidate_all (grouped : list (list value * list record))
    : result (list record) :=
  match grouped with
  | [] => Ok []
  | (key, group) :: grouped' =>
      rec <- consolidate key group ;;
      recs <- consolidate_all grouped' ;;
      Ok (rec :: recs)
  end.

(** *** Step 4: the records the archive does not hold yet *)

Definition dedup (archive_keys : list (list value))
    (effective_key_cols : list string) (consolidated : list record)
    : list record :=
  filter (fun rec => negb (key_in (key_of effective_key_cols rec) archive_keys))
    consolidated.

(** *** Step 5: the cells of a new archive row *)

Definition cells_of (col_map : list (string * Z)) (rec : record) : row :=
  flat_map
    (fun cv =>
       let '(col, val) := cv in
       if truthy val
       then match dict_get String.eqb col_map (archive_col_name col) with
            | Some cid => [mk_cell cid val]
            | None => []
            end
       else [])
    rec.

(** *** The main workflow *)

(** The loop of step 4 over the consolidated records. *)
Definition new_consolidated_rows_of (ss : client) (archive_sheet_id : Z)
    (consolidated_records : list record) : list record :=
  let '(archive_keys, effective_key_cols) :=
    get_archive_existing_keys ss archive_sheet_id unique_key_cols in
  dedup archive_keys effective_key_cols consolidated_records.

(** The [try] block of step 4: the value [new_rows] is bound to, if it is
    bound at all. *)
Definition check_archive (ss : client) (archive_sheet_id : Z)
    (consolidated_records : list record) : result (option (list record)) :=
  match new_consolidated_rows_of ss archive_sheet_id consolidated_records with
  | [] => Ok None
  | new_consolidated_rows => Ok (Some new_consolidated_rows)
  end.

(** [smartsheet.models.Row(cells=cells, to_bottom=True)].  The constructor
    of the model takes [props] and [base_obj] and no other keyword, so the
    call raises [TypeError] and no row comes of it. *)
Definition Row (cells : list cell) (to_bottom : bool) : result row :=
  Raise TypeError.

(** The loop that builds [new_sheet_rows]. *)
Fixpoint new_sheet_rows_of (col_map : list (string * Z))
    (new_rows : list record) : result (list row) :=
  match new_rows with
  | [] => Ok []
  | rec :: new_rows' =>
      let cells := cells_of col_map rec in
      r <- Row cells true ;;
      rs <- new_sheet_rows_of col_map new_rows' ;;
      Ok (r :: rs)
  end.

Definition archive_operation (cfg : config) (ss : client)
    (new_rows : list record) : list event :=
  if DRY_RUN cfg then [EvSay (MsgDryRun (List.length new_rows))]
  else
    EvArchiveOpenForWrite ::
    match get_sheet ss (ARCHIVE_SHEET_ID cfg) with
    | Raise _ => [EvSay MsgWriteError]
    | Ok archive_sheet =>
        let col_map := title_map archive_sheet in
        match new_sheet_rows_of col_map new_rows with
        | Raise _ => [EvSay MsgWriteError]
        | Ok new_sheet_rows =>
            EvAddRows new_sheet_rows ::
            match add_rows ss (ARCHIVE_SHEET_ID cfg) new_sheet_rows with
            | Ok n => [EvSay (MsgAdded n)]
            | Raise _ => [EvSay MsgWriteError]
            end
        end
    end.

(** [main]: the archive events and closing messages of a run, and whether
    it returns or lets an exception escape. *)
Definition main (cfg : config) (today : datetime) : list event * result unit :=
  if String.eqb (API_TOKEN cfg) TOKEN_PLACEHOLDER
  then ([EvSay MsgTokenUnset], Ok tt)
  else
    match connect cfg (API_TOKEN cfg) with
    | Raise _ => ([EvSay MsgConnectError], Ok tt)
    | Ok ss_client =>
        match get_matching_sheets ss_client (REFERENCE_SHEET_ID cfg) with
        | Raise _ => ([EvSay MsgDiscoveryError], Ok tt)
        | Ok matching_sheets =>
            let t := pull_and_filter ss_client today matching_sheets in
            match records t with
            | [] => ([EvSay MsgNoRecords], Ok tt)
            | _ =>
                let grouped := group_records (iterrows (records t)) in
                match consolidate_all grouped with
                | Raise e => ([], Raise e)
                | Ok consolidated_records =>
                    let new_rows :=
                      try_except
                        (check_archive ss_client (ARCHIVE_SHEET_ID cfg)
                           consolidated_records)
                        (fun _ => Some consolidated_records) in
                    match new_rows with
                    | None => ([EvArchiveKeysRead], Raise UnboundLocalError)
                    | Some [] =>
                        ([EvArchiveKeysRead; EvSay MsgNoNewCombinations], Ok tt)
                    | Some new_rows =>
                        (EvArchiveKeysRead ::
                         archive_operation cfg ss_client new_rows
                         ++ [EvSay MsgCompleted], Ok tt)
                    end
                end
            end
        end
    end.

End Pipeline.

(* ================================================================== *)
(** ** Stand-ins for the library functions, for running the model *)

Definition digits_to_Z (s : string) : result Z :=
  match NilZero.uint_of_string s with
  | Some u => Ok (Z.of_N (N.of_uint u))
  | None => Raise ParserError
  end.

(** Dates written [YYYY-MM-DD], which [dateutil] reads as that day at
    00:00, naive. *)
Definition parse_iso_date (s : string) : result datetime :=
  if (String.length s =? 10)%nat
     && String.eqb (substring 4 1 s) "-" && String.eqb (substring 7 1 s) "-"
  then
    y <- digits_to_Z (substring 0 4 s) ;;
    m <- digits_to_Z (substring 5 2 s) ;;
    d <- digits_to_Z (substring 8 2 s) ;;
    if (1 <=? y) && (1 <=? m) && (m <=? 12) && (1 <=? d)
       && (d <=? days_before_month y (m + 1) - days_before_month y m)
    then Ok (naive y m d 0 0 0)
    else Raise ParserError
  else Raise ParserError.

(** The same, and midnight UTC written [YYYY-MM-DDT00:00:00Z], which
    [dateutil] reads as an aware datetime. *)
Definition parse_iso_utc (s : string) : result datetime :=
  if (String.length s =? 20)%nat && String.eqb (substring 10 10 s) "T00:00:00Z"
  then
    d <- parse_iso_date (substring 0 10 s) ;;
    Ok (mk_datetime (ordinal d) (micros d) (Some 0))
  else parse_iso_date s.

(** Dates written [YYYY-MM-DD] or [YYYYMMDD], which [dateutil] reads as
    the same day. *)
Definition parse_iso_or_compact (s : string) : result datetime :=
  if (String.length s =? 8)%nat
  then parse_iso_date
         (substring 0 4 s ++ "-" ++ substring 4 2 s ++ "-" ++ substring 6 2 s)
  else parse_iso_date s.

(** Floats written as decimal integers, which [float] reads exactly. *)
Definition parse_int_float (s : string) : result float :=
  match NilZero.int_of_string s with
  | Some i => float_of_int (Z.of_int i)
  | None => Raise ValueError
  end.

(** A stand-in for [repr]: the examples have no float where a date is read,
    and what it returns is not a date. *)
Definition repr_any (f : float) : string := "<float>".

(** A data frame that hands every value back as it received it. *)
Definition iterrows_id (rs : list record) : list record := rs.

(* ================================================================== *)
(** ** The running maximum of [max] *)

Definition has_sort (key : record -> value) (s : sort) (r : record) : Prop :=
  sort_of (key r) = Some s.

(** What holds of the running maximum [m] of the items seen so far,
    [pre ++ m :: mid]: none of them is greater, none before it is equal. *)
Definition leads_by (key : record -> value) (pre : list record) (m : record)
    (mid : list record) : Prop :=
  (forall r, In r (pre ++ m :: mid) -> py_gt (key r) (key m) = Ok false) /\
  (forall r, In r pre -> py_eq (key r) (key m) = false).

(* ================================================================== *)
(** ** The week boundary and the effective key as the specification words
    them *)

(** "The most recent Sunday at or before that value at time 00:00". *)
Definition claimed_week_start (now : datetime) : datetime :=
  midnight
    (mk_datetime (ordinal now - (weekday now + 1) mod 7) (micros now)
       (utcoffset now)).

(** "Exactly those Group Key columns whose remapped archive-side name
    exists in the archive schema". *)
Definition claimed_effective_key_cols (archive : sheet) : list string :=
  filter (fun col => set_mem (archive_col_name col) (titles archive))
    unique_key_cols.

(* ================================================================== *)
(** ** A small workspace, for running the model *)

Module Example.

Definition source_columns : list column :=
  [ mk_column 11 "Units Total Price"; mk_column 12 "Job #";
    mk_column 13 "Foreman"; mk_column 14 "Work Release #";
    mk_column 15 "Weekly Reference Logged Date" ].

Definition source_row (price job foreman release logged : value) : row :=
  [ mk_cell 11 price; mk_cell 12 job; mk_cell 13 foreman;
    mk_cell 14 release; mk_cell 15 logged ].

Definition reference_sheet : sheet := mk_sheet source_columns [].

(** A crew sheet: the reference columns and one more. *)
Definition crew_sheet (rs : list row) : sheet :=
  mk_sheet (source_columns ++ [mk_column 16 "Notes"]) rs.

Definition archive_columns : list column :=
  [ mk_column 31 "Job Number"; mk_column 32 "Foreman";
    mk_column 33 "Work Release #"; mk_column 34 "PROMAX";
    mk_column 35 "Weekly Reference Logged Date" ].

Definition archive_row (job foreman release promax logged : value) : row :=
  [ mk_cell 31 job; mk_cell 32 foreman; mk_cell 33 release;
    mk_cell 34 promax; mk_cell 35 logged ].

(** Sheet 1 is the reference, sheet 2 a crew sheet, sheet 3 the archive. *)
Definition workspace (crew : sheet) (archive : result sheet) : client :=
  mk_client
    (fun sid =>
       if sid =? 1 then Ok reference_sheet
       else if sid =? 2 then Ok crew
       else if sid =? 3 then archive
       else Raise ApiError)
    [ Ok [ mk_info 1 "Reference"; mk_info 2 "Crew A"; mk_info 3 "Archive";
           mk_info 4 "Gone" ] ]
    (fun _ new_sheet_rows => Ok (List.length new_sheet_rows)).

Definition configuration (ss : client) (dry_run : bool) : config :=
  mk_config "token" 1 3 dry_run (fun _ => Ok ss).

(** Wednesday 2024-01-10, 15:30. *)
Definition wednesday : datetime := naive 2024 1 10 15 30 0.

(** Sunday 2024-01-07, 09:00. *)
Definition sunday : datetime := naive 2024 1 7 9 0 0.

Definition j1_rows : list row :=
  [ source_row (VInt 100) (VStr "J1") (VStr "A") (VStr "WR1") (VStr "2024-01-03");
    source_row (VInt 50) (VStr "J1") (VStr "A") (VStr "WR1") (VStr "2023-12-27") ].

Definition j1_archived : sheet :=
  mk_sheet archive_columns
    [ archive_row (VStr "J1") (VStr "A") (VStr "WR1") (VFloat 150)
        (VStr "2024-01-03") ].

Definition empty_archive : sheet := mk_sheet archive_columns [].

(** A row with a negative price and a date in a past week. *)
Definition negative_rows : list row :=
  [ source_row (VInt (-5)) (VStr "J2") (VStr "B") (VStr "WR2") (VStr "2024-01-03") ].

Definition negative_row : record :=
  [ ("Units Total Price", VInt (-5)); ("Job #", VStr "J2"); ("Foreman", VStr "B");
    ("Work Release #", VStr "WR2");
    ("Weekly Reference Logged Date", VStr "2024-01-03") ].

(** Three projected rows of one group; the dates of the last two are the
    earliest and, as strings, the greatest. *)
Definition dated (price : Z) (logged location : string) : record :=
  [ ("PROMAX", VInt price); ("Job Number", VStr "J1"); ("Foreman", VStr "A");
    ("Work Release", VStr "WR1"); ("Location", VStr location);
    ("Weekly Reference Logged Date", VStr logged) ].

Definition j1_group : list record :=
  [ dated 100 "2024-01-03" "Yard"; dated 50 "9/1/2023" "Depot";
    dated 25 "9/1/2023" "Shop" ].

(** An archive without the "Work Release #" column. *)
Definition narrowed_archive : sheet :=
  mk_sheet
    [ mk_column 31 "Job Number"; mk_column 32 "Foreman"; mk_column 34 "PROMAX" ]
    [ [ mk_cell 31 (VStr "J1"); mk_cell 32 (VStr "A"); mk_cell 34 (VFloat 80) ] ].

(** An archive that has none of the key columns. *)
Definition keyless_archive : sheet :=
  mk_sheet [mk_column 34 "PROMAX"] [[mk_cell 34 (VFloat 150)]].

Definition j1_record : record :=
  [ ("PROMAX", VFloat 150); ("Job Number", VStr "J1"); ("Foreman", VStr "A");
    ("Work Release", VStr "WR1");
    ("Weekly Reference Logged Date", VStr "2024-01-03") ].

(** Source rows as dictionaries: one that passes, one priced 0, one dated
    with a timezone. *)
Definition priced (price : value) (logged : string) : record :=
  [ ("Units Total Price", price); ("Job #", VStr "J1"); ("Foreman", VStr "A");
    ("Work Release #", VStr "WR1");
    ("Weekly Reference Logged Date", VStr logged) ].

Definition row_ok : record := priced (VInt 100) "2024-01-03".

(** The same job a week on, its date entered as the number 20240103. *)
Definition row_numbered : record :=
  [ ("Units Total Price", VInt 50); ("Job #", VStr "J1"); ("Foreman", VStr "A");
    ("Work Release #", VStr "WR1");
    ("Weekly Reference Logged Date", VInt 20240103) ].
Definition row_zero : record := priced (VInt 0) "2024-01-03".
Definition row_aware : record := priced (VInt 70) "2024-01-03T00:00:00Z".

(** Two rows of one job that pass the filter, one dated by a string and
    one by a number; the same as rows of a sheet; and as step 2 projects
    them. *)
Definition mixed_rows : list record := [row_ok; row_numbered].

Definition mixed_source_rows : list row :=
  [ source_row (VInt 100) (VStr "J1") (VStr "A") (VStr "WR1") (VStr "2024-01-03");
    source_row (VInt 50) (VStr "J1") (VStr "A") (VStr "WR1") (VInt 20240103) ].

Definition mixed_group : list record := map out_row_of mixed_rows.

(** Two projected rows of one group, priced 100 and 50. *)
Definition dated_group : list record :=
  [ dated 100 "2024-01-03" "Yard"; dated 50 "2023-12-27" "Depot" ].

(** A projected row whose Job Number is NaN. *)
Definition nan_keyed (price : Z) : record :=
  [ ("PROMAX", VInt price); ("Job Number", VFloat PrimFloat.nan);
    ("Foreman", VStr "A"); ("Work Release", VStr "WR1");
    ("Weekly Reference Logged Date", VStr "2024-01-03") ].

(** Three members priced 0.1, 0.2 and 0.3. *)
Definition tenths : list record :=
  [ [("PROMAX", VFloat 0x1.999999999999ap-4)];
    [("PROMAX", VFloat 0x1.999999999999ap-3)];
    [("PROMAX", VFloat 0x1.3333333333333p-2)] ].

(** A projected row whose reference date is a number. *)
Definition number_dated : record :=
  [ ("PROMAX", VInt 10); ("Job Number", VStr "J1"); ("Foreman", VStr "A");
    ("Work Release", VStr "WR1");
    ("Weekly Reference Logged Date", VInt 20240103) ].

Definition full_page : list sheet_info := repeat (mk_info 7 "Sheet") 100.

Definition the_archive_row : row :=
  archive_row (VStr "J1") (VStr "A") (VStr "WR1") (VFloat 150) (VStr "2024-01-03").

Definition run (ss : client) (dry_run : bool) (today : datetime)
    : list event * result unit :=
  main parse_iso_date parse_int_float repr_any iterrows_id true true
    (configuration ss dry_run) today.

End Example.

(* ================================================================== *)
(** ** Notions the properties are stated with *)

(** Whether the row loop appends the row. *)
Definition appended (parse_date : string -> result datetime)
    (parse_float : string -> result float) (repr_float : float -> string)
    (today : datetime) (r : record) : bool :=
  match row_kept parse_date parse_float repr_float today r with
  | Ok true => true
  | _ => false
  end.

(** The same configuration with [DRY_RUN] set. *)
Definition with_dry_run (cfg : config) (dry_run : bool) : config :=
  mk_config (API_TOKEN cfg) (REFERENCE_SHEET_ID cfg) (ARCHIVE_SHEET_ID cfg)
    dry_run (connect cfg).

(** The cell of a row that a column name is read from: the last one whose
    column carries that name. *)
Definition names_cell (col_map : list (Z * string)) (col_name : string)
    (c : cell) : bool :=
  match dict_get Z.eqb col_map (column_id c) with
  | Some n => String.eqb col_name n && negb (String.eqb n "")
  | None => false
  end.

(** Column ids that name one column each. *)
Definition ids_distinct (col_map : list (string * Z)) : Prop :=
  forall t1 t2 cid,
    dict_get String.eqb col_map t1 = Some cid ->
    dict_get String.eqb col_map t2 = Some cid -> t1 = t2.

(** The counters agree with the records while [pending] rows of the sheet
    at hand are still to be looked at. *)
Definition tally_ok (t : tally) (pending : nat) : Prop :=
  (rows_meeting_criteria t = List.length (records t) /\
   rows_meeting_criteria t <= rows_with_past_dates t /\
   rows_with_past_dates t + pending <= total_rows_processed t /\
   rows_with_promax t + pending <= total_rows_processed t)%nat.

Definition group_key_of (rec : record) : list value :=
  key_of unique_key_cols rec.

(** A group opened by [r0], whose key it carries, and joined by records
    whose keys the dictionary takes for that key. *)
Definition group_ok (shared_nan : bool) (kg : list value * list record) : Prop :=
  exists r0 rest,
    snd kg = r0 :: rest /\ fst kg = group_key_of r0 /\
    Forall (fun r => tuple_key_eq shared_nan (group_key_of r) (fst kg) = true)
      rest.

(** No key is taken for a key before it. *)
Definition keys_apart (shared_nan : bool) (keys : list (list value)) : Prop :=
  ForallOrdPairs (fun a b => tuple_key_eq shared_nan b a = false) keys.

(** The columns of a consolidated record, in order. *)
Definition consolidated_fields : list string :=
  ["PROMAX"; "Job Number"; "Foreman"; "Work Release"] ++ copied_fields.

(** An archive row that holds every cell a record was written with (it
    may hold more, such as the empty cells of the other columns). *)
Definition holds_cells (r : row) (written : row) : Prop :=
  forall c, In c written -> get_column r (column_id c) = Some c.

Definition is_write (ev : event) : bool :=
  match ev with
  | EvArchiveOpenForWrite | EvAddRows _ => true
  | _ => false
  end.

(* ================================================================== *)
(** * Properties *)

(** ** Dictionaries *)

Section DictFacts.
Context {K V : Type}.
Variable keqb : K -> K -> bool.
Hypothesis keqb_eq : forall a b, keqb a b = true <-> a = b.

Lemma keqb_refl (k : K) : keqb k k = true.
Proof. now apply keqb_eq. Qed.

Lemma dict_get_set (d : @dict K V) (k k' : K) (v : V) :
  dict_get keqb (dict_set keqb d k' v) k =
  if keqb k k' then Some v else dict_get keqb d k.
Proof.
  induction d as [|[k0 v0] d IH]; simpl.
  - reflexivity.
  - destruct (keqb k' k0) eqn:E'; simpl.
    + apply keqb_eq in E'; subst k0.
      now destruct (keqb k k').
    + destruct (keqb k k0) eqn:E0.
      * apply keqb_eq in E0; subst k0.
        destruct (keqb k k') eqn:E; [|reflexivity].
        apply keqb_eq in E; subst k'.
        rewrite keqb_refl in E'; discriminate.
      * exact IH.
Qed.

Lemma dict_mem_set (d : @dict K V) (k k' : K) (v : V) :
  dict_mem keqb (dict_set keqb d k' v) k = keqb k k' || dict_mem keqb d k.
Proof.
  unfold dict_mem. rewrite dict_get_set. now destruct (keqb k k').
Qed.

Lemma dict_mem_fold (kvs : list (K * V)) (d : @dict K V) (k : K) :
  dict_mem keqb
    (fold_left (fun d kv => dict_set keqb d (fst kv) (snd kv)) kvs d) k = true
  <-> dict_mem keqb d k = true \/ In k (map fst kvs).
Proof.
  revert d; induction kvs as [|[k0 v0] kvs IH]; intros d; simpl.
  - tauto.
  - rewrite IH, dict_mem_set, orb_true_iff, keqb_eq.
    intuition congruence.
Qed.

Lemma dict_mem_of (kvs : list (K * V)) (k : K) :
  dict_mem keqb (dict_of keqb kvs) k = true <-> In k (map fst kvs).
Proof.
  unfold dict_of. rewrite dict_mem_fold. simpl. unfold dict_mem; simpl.
  intuition discriminate.
Qed.
Lemma dict_get_fold (kvs : list (K * V)) (d : @dict K V) (k : K) (v : V) :
  dict_get keqb
    (fold_left (fun d kv => dict_set keqb d (fst kv) (snd kv)) kvs d) k = Some v ->
  In (k, v) kvs \/ dict_get keqb d k = Some v.
Proof.
  revert d; induction kvs as [|[k0 v0] kvs IH]; intros d; simpl.
  - auto.
  - intros H. apply IH in H. destruct H as [H | H]; [auto|].
    rewrite dict_get_set in H. simpl in H.
    destruct (keqb k k0) eqn:E; [|auto].
    apply keqb_eq in E. injection H as <-. subst k0. auto.
Qed.

Lemma dict_get_of (kvs : list (K * V)) (k : K) (v : V) :
  dict_get keqb (dict_of keqb kvs) k = Some v -> In (k, v) kvs.
Proof.
  intros H. apply dict_get_fold in H. destruct H as [H | H]; [exact H|].
  discriminate.
Qed.
End DictFacts.

Lemma title_map_mem (sh : sheet) (t : string) :
  dict_mem String.eqb (title_map sh) t = true <-> In t (titles sh).
Proof.
  unfold title_map, titles.
  rewrite (dict_mem_of String.eqb String.eqb_eq), map_map. simpl. tauto.
Qed.

Lemma set_mem_In (x : string) (s : list string) :
  set_mem x s = true <-> In x s.
Proof.
  unfold set_mem. rewrite existsb_exists. split.
  - intros [y [Hy E]]. apply String.eqb_eq in E. now subst.
  - intros H. exists x. split; [exact H | apply String.eqb_refl].
Qed.

Lemma issubset_spec (a b : list string) :
  issubset a b = true <-> (forall c, In c a -> In c b).
Proof.
  unfold issubset. rewrite forallb_forall.
  split; intros H c Hc; specialize (H c Hc); now apply set_mem_In.
Qed.

(** ** Schema matcher *)

Lemma sheet_info_eta (s : sheet_info) : mk_info (sheet_id s) (sheet_name s) = s.
Proof. now destruct s. Qed.

Lemma match_sheets_In (ss : client) (ref : list string)
    (all_sheets : list sheet_info) (s : sheet_info) :
  In s (match_sheets ss ref all_sheets) <->
  In s all_sheets /\
  exists sh, get_sheet ss (sheet_id s) = Ok sh /\ issubset ref (titles sh) = true.
Proof.
  induction all_sheets as [|s0 rest IH]; simpl.
  - split; [tauto | intros [[] _]].
  - destruct (get_sheet ss (sheet_id s0)) as [sh0|e0] eqn:G0.
    + destruct (issubset ref (titles sh0)) eqn:S0; simpl;
        rewrite ?sheet_info_eta, IH.
      * split.
        -- intros [E | H]; [subst s0; eauto | tauto].
        -- tauto.
      * split; [tauto|].
        intros [[E | H] [sh [G S]]]; [|eauto].
        subst s0. congruence.
    + rewrite IH. split; [tauto|].
      intros [[E | H] [sh [G S]]]; [|eauto].
      subst s0. congruence.
Qed.

(** C7: once the reference schema is read, [get_matching_sheets] returns;
    an enumerated source whose schema can be read is among the matching
    sheets exactly when every reference column is one of its columns, and a
    source whose schema read raises is left out while the others are still
    classified. *)
Theorem get_matching_sheets_superset_test (ss : client) (reference_sheet_id : Z)
    (ref_sheet : sheet) :
  get_sheet ss reference_sheet_id = Ok ref_sheet ->
  exists matching_sheets,
    get_matching_sheets ss reference_sheet_id = Ok matching_sheets /\
    (forall s, In s matching_sheets -> In s (fetch_all_sheets (list_pages ss) [])) /\
    forall s, In s (fetch_all_sheets (list_pages ss) []) ->
      match get_sheet ss (sheet_id s) with
      | Ok this_sheet =>
          In s matching_sheets <->
          (forall c, In c (titles ref_sheet) -> In c (titles this_sheet))
      | Raise _ => ~ In s matching_sheets
      end.
Proof.
  intros Href. unfold get_matching_sheets. rewrite Href. simpl.
  eexists; split; [reflexivity|]. split.
  - intros s Hs. now apply match_sheets_In in Hs.
  - intros s Hs. destruct (get_sheet ss (sheet_id s)) as [sh|e] eqn:G.
    + rewrite match_sheets_In, <- issubset_spec. split.
      * intros [_ [sh' [G' S']]]. congruence.
      * intros S. split; [exact Hs | eauto].
    + rewrite match_sheets_In. intros [_ [sh [G' _]]]. congruence.
Qed.

(** ** Archive deduplicator *)

Lemma dedup_In (archive_keys : list (list value)) (cols : list string)
    (recs : list record) (rec : record) :
  In rec (dedup archive_keys cols recs) <->
  In rec recs /\ key_in (key_of cols rec) archive_keys = false.
Proof.
  unfold dedup. rewrite filter_In, negb_true_iff. tauto.
Qed.

(** C1: when the archive key set holds the effective-key projection of
    every consolidated record, the deduplication step keeps no record. *)
Theorem dedup_idempotent (archive_keys : list (list value))
    (effective_key_cols : list string) (consolidated_records : list record) :
  (forall rec, In rec consolidated_records ->
               key_in (key_of effective_key_cols rec) archive_keys = true) ->
  dedup archive_keys effective_key_cols consolidated_records = [].
Proof.
  intros H. unfold dedup.
  induction consolidated_records as [|rec recs IH]; simpl.
  - reflexivity.
  - rewrite (H rec (or_introl eq_refl)). simpl.
    apply IH. intros r Hr. apply H. now right.
Qed.

Lemma dedup_no_keys (cols : list string) (recs : list record) :
  dedup [] cols recs = recs.
Proof.
  unfold dedup. induction recs as [|r recs IH]; simpl; [reflexivity|].
  f_equal. exact IH.
Qed.

(** ** Python equality is a partial equivalence *)

Lemma xnum_eqb_sym (x y : xnum) : xnum_eqb x y = xnum_eqb y x.
Proof.
  destruct x, y; simpl; try reflexivity. apply Qeq_bool_comm.
Qed.

Lemma xnum_eqb_trans (x y z : xnum) :
  xnum_eqb x y = true -> xnum_eqb y z = true -> xnum_eqb x z = true.
Proof.
  destruct x, y, z; simpl; try discriminate; auto.
  apply Qeq_bool_trans.
Qed.

Lemma py_eq_num (a b : value) (x y : xnum) :
  num_of a = Some x -> num_of b = Some y -> py_eq a b = xnum_eqb x y.
Proof.
  destruct a, b; cbn [py_eq num_of]; intros Ha Hb; try discriminate;
    injection Ha as <-; injection Hb as <-; reflexivity.
Qed.

Lemma py_eq_cases (a b : value) :
  py_eq a b = true ->
  (a = VNone /\ b = VNone) \/
  (exists s, a = VStr s /\ b = VStr s) \/
  (exists x y, num_of a = Some x /\ num_of b = Some y /\ xnum_eqb x y = true).
Proof.
  destruct a, b; cbn [py_eq num_of]; intros H; try discriminate; auto;
    try (right; right; eauto; fail).
  right; left. apply String.eqb_eq in H. subst. eauto.
Qed.

Lemma py_eq_sym (a b : value) : py_eq a b = py_eq b a.
Proof.
  destruct a, b; cbn [py_eq num_of]; try reflexivity;
    try apply xnum_eqb_sym.
  apply String.eqb_sym.
Qed.

Lemma py_eq_trans (a b c : value) :
  py_eq a b = true -> py_eq b c = true -> py_eq a c = true.
Proof.
  intros Hab Hbc.
  destruct (py_eq_cases _ _ Hab) as [[-> ->] | [[s [-> ->]] | [x [y [Ha [Hb Hxy]]]]]];
    try exact Hbc.
  destruct (py_eq_cases _ _ Hbc) as [[-> ->] | [[s [-> ->]] | [y' [z [Hb' [Hc Hyz]]]]]];
    try discriminate.
  rewrite (py_eq_num _ _ Ha Hc).
  assert (y' = y) by congruence. subst y'.
  eapply xnum_eqb_trans; eassumption.
Qed.

Lemma tuple_eq_sym (a b : list value) : tuple_eq a b = tuple_eq b a.
Proof.
  revert b; induction a as [|x a IH]; intros [|y b]; simpl; try reflexivity.
  now rewrite py_eq_sym, IH.
Qed.

Lemma tuple_eq_trans (a b c : list value) :
  tuple_eq a b = true -> tuple_eq b c = true -> tuple_eq a c = true.
Proof.
  revert b c; induction a as [|x a IH]; intros [|y b] [|z c]; simpl;
    try discriminate; auto.
  rewrite !andb_true_iff. intros [H1 H2] [H3 H4]. split.
  - eapply py_eq_trans; eassumption.
  - eapply IH; eassumption.
Qed.

Lemma key_in_spec (key : list value) (keys : list (list value)) :
  key_in key keys = true <-> exists k, In k keys /\ tuple_eq key k = true.
Proof. unfold key_in. apply existsb_exists. Qed.

Lemma key_in_set_add (k key : list value) (keys : list (list value)) :
  key_in k (set_add key keys) = true <->
  tuple_eq k key = true \/ key_in k keys = true.
Proof.
  unfold set_add. destruct (key_in key keys) eqn:E.
  - split; [tauto|]. intros [H | H]; [|exact H].
    apply key_in_spec in E. destruct E as [k0 [Hin H0]].
    apply key_in_spec. exists k0. split; [exact Hin|].
    eapply tuple_eq_trans; eassumption.
  - unfold key_in. rewrite existsb_app. simpl.
    rewrite orb_true_iff, orb_false_r. tauto.
Qed.

(** The key set read from the archive: a tuple is in it exactly when some
    archive row yields an equal key. *)
Lemma key_in_archive_keys (col_map : list (string * Z)) (rs : list row)
    (cols : list string) (k : list value) :
  key_in k (archive_keys_of col_map rs cols) = true <->
  exists r k0, In r rs /\ archive_row_key col_map r cols = Ok k0 /\
               tuple_eq k k0 = true.
Proof.
  unfold archive_keys_of.
  assert (G : forall keys,
    key_in k (fold_left
      (fun keys r =>
         match archive_row_key col_map r cols with
         | Ok key => set_add key keys
         | Raise _ => keys
         end) rs keys) = true <->
    key_in k keys = true \/
    exists r k0, In r rs /\ archive_row_key col_map r cols = Ok k0 /\
                 tuple_eq k k0 = true).
  { induction rs as [|r rs IH]; intros keys; simpl.
    - split; [tauto|]. intros [H | [r [k0 [[] _]]]]. exact H.
    - rewrite IH. destruct (archive_row_key col_map r cols) as [key|e] eqn:E.
      + rewrite key_in_set_add. split.
        * intros [[H | H] | [r' [k0 [Hin H]]]]; eauto 8.
        * intros [H | [r' [k0 [[-> | Hin] [Hk Ht]]]]]; eauto 8.
          rewrite E in Hk. injection Hk as ->. auto.
      + split.
        * intros [H | [r' [k0 [Hin H]]]]; eauto 8.
        * intros [H | [r' [k0 [[-> | Hin] [Hk Ht]]]]]; eauto 8.
          congruence. }
  rewrite G. simpl. split.
  - intros [H | H]; [discriminate | exact H].
  - auto.
Qed.

(** Records whose key some archive row carries are not new. *)
Lemma archived_records_are_not_new (col_map : list (string * Z))
    (rs : list row) (cols : list string) (recs : list record) :
  (forall rec, In rec recs ->
     exists r k, In r rs /\ archive_row_key col_map r cols = Ok k /\
                 tuple_eq (key_of cols rec) k = true) ->
  dedup (archive_keys_of col_map rs cols) cols recs = [].
Proof.
  intros H.
  destruct (dedup (archive_keys_of col_map rs cols) cols recs) as [|rec l] eqn:E;
    [reflexivity|].
  assert (Hin : In rec (dedup (archive_keys_of col_map rs cols) cols recs))
    by (rewrite E; now left).
  apply dedup_In in Hin. destruct Hin as [Hrec Hkey].
  apply H, key_in_archive_keys in Hrec. congruence.
Qed.

(** An archive row that lacks a cell of a key column is passed over. *)
Lemma bad_archive_row_is_skipped (col_map : list (string * Z)) (r : row)
    (rs : list row) (cols : list string) (e : exn) :
  archive_row_key col_map r cols = Raise e ->
  archive_keys_of col_map (r :: rs) cols = archive_keys_of col_map rs cols.
Proof.
  intros H. unfold archive_keys_of. simpl. now rewrite H.
Qed.

Lemma available_cols_spec (sh : sheet) (col : string) :
  In col (available_cols_of (title_map sh) unique_key_cols) <->
  In col unique_key_cols /\ In (archive_col_name col) (titles sh).
Proof.
  unfold available_cols_of. rewrite filter_In, title_map_mem. tauto.
Qed.

Lemma get_archive_existing_keys_ok (ss : client) (aid : Z) (sh : sheet)
    (cols : list string) :
  get_sheet ss aid = Ok sh ->
  get_archive_existing_keys ss aid cols =
  (archive_keys_of (title_map sh) (rows sh) (effective_cols_of (title_map sh) cols),
   effective_cols_of (title_map sh) cols).
Proof.
  intros H. unfold get_archive_existing_keys. now rewrite H.
Qed.

Lemma no_available_col_key (col_map : list (string * Z)) (r : row) :
  available_cols_of col_map unique_key_cols = [] ->
  archive_row_key col_map r unique_key_cols = Ok [VNone; VNone; VNone].
Proof.
  unfold available_cols_of, unique_key_cols, dict_mem. simpl.
  destruct (dict_get String.eqb col_map (archive_col_name "Job Number"));
    [discriminate|].
  destruct (dict_get String.eqb col_map (archive_col_name "Foreman"));
    [discriminate|].
  destruct (dict_get String.eqb col_map (archive_col_name "Work Release"));
    [discriminate|].
  reflexivity.
Qed.

(** C3, as the code has it: against a readable archive, a consolidated
    record is kept as new exactly when no archive row yields a key equal to
    the record's projection through the effective key columns, so that
    records that agree on these columns are kept or dropped together; the
    effective key columns are the Group Key columns whose archive-side name
    is a column of the archive when there is at least one such column, and
    all three Group Key columns, each read as [None] from every archive
    row, when there is none. *)
Theorem dedup_effective_key (ss : client) (archive_sheet_id : Z) (sh : sheet)
    (consolidated_records : list record) :
  get_sheet ss archive_sheet_id = Ok sh ->
  let col_map := title_map sh in
  let available_cols := available_cols_of col_map unique_key_cols in
  let effective_key_cols := effective_cols_of col_map unique_key_cols in
  let new_rows :=
    new_consolidated_rows_of ss archive_sheet_id consolidated_records in
  (forall rec,
     In rec new_rows <->
     In rec consolidated_records /\
     ~ exists r k, In r (rows sh) /\
                   archive_row_key col_map r effective_key_cols = Ok k /\
                   tuple_eq (key_of effective_key_cols rec) k = true) /\
  (forall rec rec',
     In rec consolidated_records -> In rec' consolidated_records ->
     key_of effective_key_cols rec = key_of effective_key_cols rec' ->
     (In rec new_rows <-> In rec' new_rows)) /\
  (forall col, In col available_cols <->
               In col unique_key_cols /\ In (archive_col_name col) (titles sh)) /\
  (available_cols <> [] -> effective_key_cols = available_cols) /\
  (available_cols = [] ->
   effective_key_cols = unique_key_cols /\
   forall r, archive_row_key col_map r effective_key_cols
             = Ok [VNone; VNone; VNone]).
Proof.
  intros H col_map available_cols effective_key_cols new_rows.
  assert (A : forall rec,
     In rec new_rows <->
     In rec consolidated_records /\
     ~ exists r k, In r (rows sh) /\
                   archive_row_key col_map r effective_key_cols = Ok k /\
                   tuple_eq (key_of effective_key_cols rec) k = true).
  { intros rec. subst new_rows. unfold new_consolidated_rows_of.
    rewrite (get_archive_existing_keys_ok _ _ _ H).
    fold col_map effective_key_cols.
    rewrite dedup_In, <- key_in_archive_keys.
    destruct (key_in _ _); intuition congruence. }
  split; [exact A|]. split; [|split; [|split]].
  - intros rec rec' Hr Hr' E. rewrite !A, E. tauto.
  - intros col. apply available_cols_spec.
  - subst effective_key_cols available_cols. unfold effective_cols_of.
    destruct (available_cols_of col_map unique_key_cols); congruence.
  - subst effective_key_cols available_cols. unfold effective_cols_of.
    intros E. rewrite E. split; [reflexivity|].
    intros r. now apply no_available_col_key.
Qed.

Lemma claimed_effective_key_cols_available (sh : sheet) :
  claimed_effective_key_cols sh = available_cols_of (title_map sh) unique_key_cols.
Proof.
  unfold claimed_effective_key_cols, available_cols_of.
  apply filter_ext. intros col.
  apply eq_true_iff_eq. now rewrite set_mem_In, title_map_mem.
Qed.

(** C3, as stated, fails on an archive that has none of the key columns:
    the claimed effective key is empty, so the record's projection equals
    the key of the archive's row, and yet the record is kept as new. *)
Lemma narrowed_key_claim_fails :
  ~ (In Example.j1_record
        (new_consolidated_rows_of
           (Example.workspace (Example.crew_sheet []) (Ok Example.keyless_archive))
           3 [Example.j1_record]) <->
     key_in (key_of (claimed_effective_key_cols Example.keyless_archive)
               Example.j1_record)
       (archive_keys_of (title_map Example.keyless_archive)
          (rows Example.keyless_archive)
          (claimed_effective_key_cols Example.keyless_archive)) = false).
Proof.
  intros [H _].
  assert (K : In Example.j1_record
        (new_consolidated_rows_of
           (Example.workspace (Example.crew_sheet []) (Ok Example.keyless_archive))
           3 [Example.j1_record])) by (left; reflexivity).
  apply H in K. vm_compute in K. discriminate K.
Qed.

(** An archive without "Work Release #": the key narrows to (Job Number,
    Foreman) and the record for (J1, A, WR1) is dropped on it. *)
Lemma dedup_effective_key_witness :
  ~ In Example.j1_record
      (new_consolidated_rows_of
         (Example.workspace (Example.crew_sheet []) (Ok Example.narrowed_archive))
         3 [Example.j1_record]).
Proof.
  intros K.
  apply (proj1 (dedup_effective_key
                  (Example.workspace (Example.crew_sheet [])
                     (Ok Example.narrowed_archive))
                  3 [Example.j1_record] eq_refl)) in K.
  destruct K as [_ K]. apply K.
  exists [ mk_cell 31 (VStr "J1"); mk_cell 32 (VStr "A"); mk_cell 34 (VFloat 80) ].
  exists [VStr "J1"; VStr "A"].
  split; [left; reflexivity|]. split; reflexivity.
Defined.

(** ** The order of [>] on values of one sort *)

Lemma string_compare_lt_trans (a b c : string) :
  String.compare a b = Lt -> String.compare b c = Lt -> String.compare a c = Lt.
Proof.
  revert b c; induction a as [|x a IH]; intros [|y b] [|z c]; simpl;
    try discriminate; try reflexivity.
  unfold Ascii.compare.
  destruct (N.compare_spec (N_of_ascii x) (N_of_ascii y)) as [Exy|Lxy|Gxy];
    destruct (N.compare_spec (N_of_ascii y) (N_of_ascii z)) as [Eyz|Lyz|Gyz];
    try discriminate;
    destruct (N.compare_spec (N_of_ascii x) (N_of_ascii z)) as [Exz|Lxz|Gxz];
    try reflexivity; try lia.
  apply IH.
Qed.

Lemma string_ltb_trans (a b c : string) :
  String.ltb a b = true -> String.ltb b c = true -> String.ltb a c = true.
Proof.
  unfold String.ltb. intros Hab Hbc.
  destruct (String.compare a b) eqn:Eab; try discriminate.
  destruct (String.compare b c) eqn:Ebc; try discriminate.
  now rewrite (string_compare_lt_trans _ _ _ Eab Ebc).
Qed.

Lemma string_ltb_irrefl (a : string) : String.ltb a a = false.
Proof.
  unfold String.ltb.
  assert (H : String.compare a a = Eq).
  { induction a as [|x a IH]; simpl; [reflexivity|].
    unfold Ascii.compare. now rewrite N.compare_refl. }
  now rewrite H.
Qed.

Lemma Qltb_lt (p q : Q) : Qltb p q = true <-> (p < q)%Q.
Proof.
  unfold Qltb. rewrite Qlt_alt. destruct (p ?= q)%Q; intuition discriminate.
Qed.

Lemma xnum_gtb_trans (x y z : xnum) :
  xnum_gtb x y = true -> xnum_gtb y z = true -> xnum_gtb x z = true.
Proof.
  destruct x, y, z; simpl; try discriminate; auto.
  rewrite !Qltb_lt. intros H1 H2. eapply Qlt_trans; eassumption.
Qed.

Lemma xnum_gtb_eq_l (x y z : xnum) :
  xnum_eqb x y = true -> xnum_gtb y z = true -> xnum_gtb x z = true.
Proof.
  destruct x, y, z; simpl; try discriminate; auto.
  rewrite !Qltb_lt. intros H1 H2. apply Qeq_bool_eq in H1.
  now rewrite H1.
Qed.

Lemma xnum_gtb_irrefl (x : xnum) : xnum_gtb x x = false.
Proof.
  destruct x; simpl; try reflexivity.
  destruct (Qltb q q) eqn:E; [|reflexivity].
  apply Qltb_lt in E. now apply Qlt_irrefl in E.
Qed.

Lemma sort_num (v : value) :
  sort_of v = Some SNum -> exists x, num_of v = Some x.
Proof. destruct v; simpl; intros H; try discriminate; eauto. Qed.

Lemma sort_str (v : value) :
  sort_of v = Some SStr -> exists s, v = VStr s.
Proof. destruct v; simpl; intros H; try discriminate; eauto. Qed.

Lemma py_gt_num (a b : value) (x y : xnum) :
  num_of a = Some x -> num_of b = Some y -> py_gt a b = Ok (xnum_gtb x y).
Proof.
  destruct a, b; cbn [py_gt num_of]; intros Ha Hb; try discriminate;
    injection Ha as <-; injection Hb as <-; reflexivity.
Qed.

(** Within one sort [>] never raises. *)
Lemma py_gt_total (s : sort) (a b : value) :
  sort_of a = Some s -> sort_of b = Some s -> exists r, py_gt a b = Ok r.
Proof.
  destruct s; intros Ha Hb.
  - destruct (sort_num _ Ha) as [x Hx], (sort_num _ Hb) as [y Hy].
    rewrite (py_gt_num _ _ Hx Hy). eauto.
  - destruct (sort_str _ Ha) as [x ->], (sort_str _ Hb) as [y ->].
    simpl. eauto.
Qed.

Lemma py_gt_irrefl (s : sort) (a : value) :
  sort_of a = Some s -> py_gt a a = Ok false.
Proof.
  destruct s; intros Ha.
  - destruct (sort_num _ Ha) as [x Hx].
    now rewrite (py_gt_num _ _ Hx Hx), xnum_gtb_irrefl.
  - destruct (sort_str _ Ha) as [x ->]. simpl. now rewrite string_ltb_irrefl.
Qed.

Lemma py_gt_trans (s : sort) (a b c : value) :
  sort_of a = Some s -> sort_of b = Some s -> sort_of c = Some s ->
  py_gt a b = Ok true -> py_gt b c = Ok true -> py_gt a c = Ok true.
Proof.
  destruct s; intros Ha Hb Hc.
  - destruct (sort_num _ Ha) as [x Hx], (sort_num _ Hb) as [y Hy],
      (sort_num _ Hc) as [z Hz].
    rewrite (py_gt_num _ _ Hx Hy), (py_gt_num _ _ Hy Hz), (py_gt_num _ _ Hx Hz).
    intros H1 H2. injection H1 as H1. injection H2 as H2.
    now rewrite (xnum_gtb_trans _ _ _ H1 H2).
  - destruct (sort_str _ Ha) as [x ->], (sort_str _ Hb) as [y ->],
      (sort_str _ Hc) as [z ->]. simpl.
    intros H1 H2. injection H1 as H1. injection H2 as H2.
    now rewrite (string_ltb_trans _ _ _ H2 H1).
Qed.

Lemma py_gt_eq_l (s : sort) (a b c : value) :
  sort_of a = Some s -> sort_of b = Some s -> sort_of c = Some s ->
  py_eq a b = true -> py_gt b c = Ok true -> py_gt a c = Ok true.
Proof.
  destruct s; intros Ha Hb Hc.
  - destruct (sort_num _ Ha) as [x Hx], (sort_num _ Hb) as [y Hy],
      (sort_num _ Hc) as [z Hz].
    rewrite (py_eq_num _ _ Hx Hy), (py_gt_num _ _ Hy Hz), (py_gt_num _ _ Hx Hz).
    intros H1 H2. injection H2 as H2.
    now rewrite (xnum_gtb_eq_l _ _ _ H1 H2).
  - destruct (sort_str _ Ha) as [x ->], (sort_str _ Hb) as [y ->],
      (sort_str _ Hc) as [z ->]. simpl.
    intros H1 H2. apply String.eqb_eq in H1. now subst.
Qed.

(** ** [max] with a key *)

Section MaxBy.
Variable key : record -> value.
Variable s : sort.

Lemma leads_first (m : record) : has_sort key s m -> leads_by key [] m [].
Proof.
  intros Hm. split.
  - intros r [<- | []]. exact (py_gt_irrefl _ Hm).
  - intros r [].
Qed.

Lemma leads_keep (pre : list record) (m : record) (mid : list record) (x : record) :
  leads_by key pre m mid -> py_gt (key x) (key m) = Ok false ->
  leads_by key pre m (mid ++ [x]).
Proof.
  intros [H1 H2] Hx. split; [|exact H2].
  intros r Hr. replace (pre ++ m :: mid ++ [x]) with ((pre ++ m :: mid) ++ [x]) in Hr
    by now rewrite <- app_assoc.
  apply in_app_or in Hr. destruct Hr as [Hr | [<- | []]]; auto.
Qed.

Lemma leads_replace (pre : list record) (m : record) (mid : list record) (x : record) :
  Forall (has_sort key s) (pre ++ m :: mid) -> has_sort key s x ->
  leads_by key pre m mid -> py_gt (key x) (key m) = Ok true ->
  leads_by key (pre ++ m :: mid) x [].
Proof.
  intros Hs Hx [H1 H2] Hgt.
  assert (Hm : has_sort key s m).
  { rewrite Forall_forall in Hs. apply Hs, in_elt. }
  rewrite Forall_forall in Hs. split.
  - intros r Hr. apply in_app_or in Hr. destruct Hr as [Hr | [<- | []]].
    + destruct (py_gt_total _ _ (Hs r Hr) Hx) as [[|] Hb]; [|exact Hb].
      pose proof (py_gt_trans _ _ _ (Hs r Hr) Hx Hm Hb Hgt) as C.
      rewrite (H1 r Hr) in C. discriminate.
    + exact (py_gt_irrefl _ Hx).
  - intros r Hr. destruct (py_eq (key r) (key x)) eqn:E; [|reflexivity].
    pose proof (py_gt_eq_l _ _ _ (Hs r Hr) Hx Hm E Hgt) as C.
    rewrite (H1 r Hr) in C. discriminate.
Qed.

Lemma max_loop_spec (items pre : list record) (m : record) (mid : list record) :
  Forall (has_sort key s) (pre ++ m :: mid) -> Forall (has_sort key s) items ->
  leads_by key pre m mid ->
  exists pre' m' post',
    max_loop key items m (key m) = Ok m' /\
    pre ++ m :: mid ++ items = pre' ++ m' :: post' /\
    leads_by key pre' m' post'.
Proof.
  revert pre m mid. induction items as [|x items IH]; intros pre m mid Hs Hi L.
  - exists pre, m, mid. rewrite app_nil_r. auto.
  - inversion Hi as [|? ? Hx Hi']; subst.
    assert (Hm : has_sort key s m).
    { rewrite Forall_forall in Hs. apply Hs, in_elt. }
    simpl. destruct (py_gt_total _ _ Hx Hm) as [[|] Hb]; rewrite Hb; simpl.
    + destruct (IH (pre ++ m :: mid) x []) as [pre' [m' [post' [E [A L']]]]].
      * apply Forall_app. split; [exact Hs | auto].
      * exact Hi'.
      * now apply leads_replace.
      * exists pre', m', post'. split; [exact E|]. split; [|exact L'].
        rewrite <- A, <- app_assoc. reflexivity.
    + destruct (IH pre m (mid ++ [x])) as [pre' [m' [post' [E [A L']]]]].
      * replace (pre ++ m :: mid ++ [x]) with ((pre ++ m :: mid) ++ [x])
          by now rewrite <- app_assoc.
        apply Forall_app. split; [exact Hs | auto].
      * exact Hi'.
      * now apply leads_keep.
      * exists pre', m', post'. split; [exact E|]. split; [|exact L'].
        rewrite <- A, <- app_assoc. reflexivity.
Qed.

(** On a non-empty list of items whose keys are of one sort, [max] returns
    the first of the items that no item exceeds. *)
Lemma py_max_spec (items : list record) :
  items <> [] -> Forall (has_sort key s) items ->
  exists pre m post,
    py_max key items = Ok m /\ items = pre ++ m :: post /\ leads_by key pre m post.
Proof.
  destruct items as [|r0 rest]; [congruence|]. intros _ Hs.
  inversion Hs as [|? ? H0 Hr]; subst.
  destruct (@max_loop_spec rest [] r0 []) as [pre [m [post [E [A L]]]]].
  - constructor; [exact H0 | constructor].
  - exact Hr.
  - now apply leads_first.
  - exists pre, m, post. auto.
Qed.

End MaxBy.

(** ** Aggregator *)

Section PipelineFacts.

Variable parse_date : string -> result datetime.
Variable parse_float : string -> result float.
Variable repr_float : float -> string.
Variable iterrows : list record -> list record.
Variable shared_nan : bool.
Variable compensated : bool.

Lemma rget_present (r : record) (col : string) (d : value) :
  truthy (rget r col VNone) = true -> rget r col d = rget r col VNone.
Proof.
  unfold rget, dict_get_or. destruct (dict_get String.eqb r col); simpl.
  - reflexivity.
  - discriminate.
Qed.

Lemma promax_terms_filter (group : list record) (fs : list float) :
  Forall2 (fun r f => py_float parse_float (rget r "PROMAX" VNone) = Ok f)
    (filter (fun r => truthy (rget r "PROMAX" VNone)) group) fs ->
  promax_terms parse_float group = Ok fs.
Proof.
  revert fs. induction group as [|r group IH]; intros fs H; simpl in *.
  - inversion H. reflexivity.
  - destruct (truthy (rget r "PROMAX" VNone)) eqn:Ht.
    + inversion H as [|? f ? fs' Hf Hrest]; subst.
      rewrite (rget_present _ _ _ Ht), Hf. simpl.
      now rewrite (IH _ Hrest).
    + now apply IH.
Qed.

Lemma promax_terms_raises (g1 : list record) (r : record) (g2 : list record)
    (e : exn) :
  Forall (fun r => truthy (rget r "PROMAX" VNone) = true ->
                   is_ok (py_float parse_float (rget r "PROMAX" VNone)) = true)
    g1 ->
  truthy (rget r "PROMAX" VNone) = true ->
  py_float parse_float (rget r "PROMAX" VNone) = Raise e ->
  promax_terms parse_float (g1 ++ r :: g2) = Raise e.
Proof.
  intros Hg1 Ht Hf. induction Hg1 as [|r1 g1 H1 _ IH]; simpl.
  - now rewrite Ht, (rget_present _ _ _ Ht), Hf.
  - destruct (truthy (rget r1 "PROMAX" VNone)) eqn:Ht1; [|exact IH].
    rewrite (rget_present _ _ _ Ht1). specialize (H1 eq_refl).
    destruct (py_float parse_float (rget r1 "PROMAX" VNone)); [|discriminate].
    simpl. now rewrite IH.
Qed.

Lemma promax_terms_ok (group : list record) :
  Forall (fun r => truthy (rget r "PROMAX" VNone) = true ->
                   is_ok (py_float parse_float (rget r "PROMAX" VNone)) = true)
    group ->
  exists fs, promax_terms parse_float group = Ok fs.
Proof.
  induction 1 as [|r group Hr _ [fs IH]]; simpl.
  - eauto.
  - destruct (truthy (rget r "PROMAX" VNone)) eqn:Ht; [|eauto].
    rewrite (rget_present _ _ _ Ht).
    specialize (Hr eq_refl).
    destruct (py_float parse_float (rget r "PROMAX" VNone)); [|discriminate].
    simpl. rewrite IH. simpl. eauto.
Qed.

Lemma consolidate_promax (job_num foreman work_release : value)
    (group : list record) (rec : record) :
  consolidate parse_float compensated [job_num; foreman; work_release] group
    = Ok rec ->
  exists total,
    total_promax parse_float compensated group = Ok total /\
    dict_get String.eqb rec "PROMAX" = Some total.
Proof.
  unfold consolidate.
  destruct (total_promax parse_float compensated group) as [total|e]; simpl;
    [|discriminate].
  destruct (py_max date_key group) as [latest|e]; simpl; [|discriminate].
  intros H. injection H as <-. eauto.
Qed.

(** C4: the total of a group is Python's [sum] of [float] of the monetary
    value over the members that carry one, in their order; a member whose
    value is missing or zero adds nothing.  A non-empty group whose
    reference dates can be compared with one another (all strings, or all
    numbers) consolidates into a record, and the PROMAX of that record is
    this total; whenever there is a record at all its PROMAX is the total.
    The first member whose value is true as a condition and is not read by
    [float] makes the total raise what [float] raises.  100 and 50 sum to
    150, with or without compensation. *)
Theorem total_promax_sums_group :
  (forall group fs,
     Forall2 (fun r f => py_float parse_float (rget r "PROMAX" VNone) = Ok f)
       (filter (fun r => truthy (rget r "PROMAX" VNone)) group) fs ->
     total_promax parse_float compensated group = Ok (py_sum compensated fs)) /\
  (forall job_num foreman work_release group fs so,
     group <> [] ->
     Forall2 (fun r f => py_float parse_float (rget r "PROMAX" VNone) = Ok f)
       (filter (fun r => truthy (rget r "PROMAX" VNone)) group) fs ->
     Forall (fun r => sort_of (date_key r) = Some so) group ->
     exists rec,
       consolidate parse_float compensated [job_num; foreman; work_release] group
         = Ok rec /\
       dict_get String.eqb rec "PROMAX" = Some (py_sum compensated fs)) /\
  (forall job_num foreman work_release group rec,
     consolidate parse_float compensated [job_num; foreman; work_release] group
       = Ok rec ->
     exists total,
       total_promax parse_float compensated group = Ok total /\
       dict_get String.eqb rec "PROMAX" = Some total) /\
  (forall g1 r g2 e,
     Forall (fun r => truthy (rget r "PROMAX" VNone) = true ->
                      is_ok (py_float parse_float (rget r "PROMAX" VNone)) = true)
       g1 ->
     truthy (rget r "PROMAX" VNone) = true ->
     py_float parse_float (rget r "PROMAX" VNone) = Raise e ->
     total_promax parse_float compensated (g1 ++ r :: g2) = Raise e) /\
  py_sum compensated [100%float; 50%float] = VFloat 150.
Proof.
  split; [|split; [|split; [|split]]].
  - intros group fs H. unfold total_promax.
    now rewrite (promax_terms_filter _ H).
  - intros job_num foreman work_release group fs so Hne Hfs Hsort.
    destruct (@py_max_spec date_key so group Hne Hsort)
      as [pre [latest [post [Hmax _]]]].
    unfold consolidate, total_promax.
    rewrite (promax_terms_filter _ Hfs), Hmax. simpl.
    eexists. split; reflexivity.
  - intros. eapply consolidate_promax; eassumption.
  - intros g1 r g2 e Hg1 Ht Hf. unfold total_promax.
    now rewrite (@promax_terms_raises g1 r g2 e Hg1 Ht Hf).
  - destruct compensated; reflexivity.
Qed.

(** C6: a non-empty group whose reference dates can be compared with one
    another, all being strings or all numbers, and whose monetary values are
    numeric where present, consolidates into a record that takes its key
    fields from the group key and each other non-summed field from one
    member, [latest]: the first of the members whose raw reference date no
    member's exceeds under [>]. *)
Theorem consolidate_copies_latest (job_num foreman work_release : value)
    (group : list record) (so : sort) :
  group <> [] ->
  Forall (fun r => sort_of (date_key r) = Some so) group ->
  Forall (fun r => truthy (rget r "PROMAX" VNone) = true ->
                   is_ok (py_float parse_float (rget r "PROMAX" VNone)) = true)
    group ->
  exists rec pre latest post,
    consolidate parse_float compensated [job_num; foreman; work_release] group
      = Ok rec /\
    group = pre ++ latest :: post /\
    (forall r, In r group -> py_gt (date_key r) (date_key latest) = Ok false) /\
    (forall r, In r pre -> py_eq (date_key r) (date_key latest) = false) /\
    (forall col, In col copied_fields ->
       dict_get String.eqb rec col = Some (rget latest col (VStr ""))) /\
    dict_get String.eqb rec "Job Number" = Some job_num /\
    dict_get String.eqb rec "Foreman" = Some foreman /\
    dict_get String.eqb rec "Work Release" = Some work_release.
Proof.
  intros Hne Hsort Hmoney.
  destruct (promax_terms_ok Hmoney) as [fs Hfs].
  destruct (@py_max_spec date_key so group Hne Hsort) as [pre [latest [post [Hmax [Hsplit [L1 L2]]]]]].
  unfold consolidate, total_promax. rewrite Hfs, Hmax. simpl.
  eexists; exists pre, latest, post.
  split; [reflexivity|]. split; [exact Hsplit|].
  split; [now rewrite Hsplit|]. split; [exact L2|].
  split; [|repeat split].
  intros col Hcol. unfold copied_fields in Hcol. simpl in Hcol.
  repeat (destruct Hcol as [<- | Hcol]; [reflexivity|]).
  destruct Hcol.
Qed.

(** ** Criteria filter *)

Lemma weekday_range (d : datetime) : 0 <= weekday d < 7.
Proof. unfold weekday. apply Z.mod_pos_bound. lia. Qed.

(** What [week_start] computes: the Sunday on or before the day of its
    argument, at the argument's own time of day. *)
Lemma week_start_sunday (today : datetime) :
  7 <= ordinal today <= MAXORDINAL ->
  exists d,
    week_start parse_date repr_float (inl today) = Ok d /\
    weekday d = 6 /\
    ordinal today - 6 <= ordinal d <= ordinal today /\
    micros d = micros today /\
    utcoffset d = utcoffset today.
Proof.
  intros Hr. unfold week_start, sub_days. simpl.
  pose proof (weekday_range today) as Hw.
  assert (Hk : 0 <= (weekday today + 1) mod 7 < 7)
    by (apply Z.mod_pos_bound; lia).
  set (k := (weekday today + 1) mod 7) in *.
  assert (H1 : (0 <? ordinal today - k) && (ordinal today - k <=? MAXORDINAL) = true).
  { apply andb_true_iff. split; [apply Z.ltb_lt | apply Z.leb_le];
      unfold MAXORDINAL in *; lia. }
  rewrite H1. eexists. split; [reflexivity|]. simpl.
  split; [|split; [lia | split; reflexivity]].
  subst k. unfold weekday in *. simpl.
  Z.to_euclidean_division_equations. lia.
Qed.

(** It is the boundary of the specification only at midnight. *)
Lemma week_start_vs_claimed (today : datetime) :
  7 <= ordinal today <= MAXORDINAL ->
  (week_start parse_date repr_float (inl today) = Ok (claimed_week_start today)
   <-> micros today = 0).
Proof.
  intros Hr. unfold week_start, sub_days, claimed_week_start, midnight. simpl.
  pose proof (weekday_range today) as Hw.
  assert (Hk : 0 <= (weekday today + 1) mod 7 < 7)
    by (apply Z.mod_pos_bound; lia).
  set (k := (weekday today + 1) mod 7) in *.
  assert (H1 : (0 <? ordinal today - k) && (ordinal today - k <=? MAXORDINAL) = true).
  { apply andb_true_iff. split; [apply Z.ltb_lt | apply Z.leb_le];
      unfold MAXORDINAL in *; lia. }
  rewrite H1. split.
  - intros H. now injection H.
  - intros ->. reflexivity.
Qed.

Lemma is_past_week_true (today : datetime) (date_str : value) :
  is_past_week parse_date repr_float today date_str = Ok true <->
  truthy date_str = true /\
  exists date_val current_week_start,
    parse_date (py_str repr_float date_str) = Ok date_val /\
    week_start parse_date repr_float (inl today) = Ok current_week_start /\
    dt_lt date_val current_week_start = Ok true.
Proof.
  unfold is_past_week. destruct (truthy date_str); simpl.
  - destruct (parse_date (py_str repr_float date_str)) as [date_val|e].
    + destruct (week_start parse_date repr_float (inl today)) as [ws|e]; simpl.
      * split.
        -- intros H. split; [reflexivity|]. eauto.
        -- intros [_ [d [w [Hd [Hw Hlt]]]]]. congruence.
      * split; [discriminate|].
        intros [_ [d [w [_ [Hw _]]]]]. discriminate.
    + split; [discriminate|].
      intros [_ [d [w [Hd _]]]]. discriminate.
  - split; [discriminate|]. intros [H _]. discriminate.
Qed.

(** What the row loop keeps: the rows with a past-week date whose monetary
    value is true as a condition and converts to a float other than 0. *)
Lemma row_kept_true (today : datetime) (r : record) :
  let promax_val := rget r "Units Total Price" VNone in
  let week_ending := rget r "Weekly Reference Logged Date" VNone in
  row_kept parse_date parse_float repr_float today r = Ok true <->
  is_past_week parse_date repr_float today week_ending = Ok true /\
  truthy promax_val = true /\
  exists f, py_float parse_float promax_val = Ok f /\
            py_eq (VFloat f) (VInt 0) = false.
Proof.
  intros promax_val week_ending. unfold row_kept.
  change (rget r (column_map "PROMAX") VNone) with promax_val.
  change (rget r (column_map "Weekly Reference Logged Date") VNone) with week_ending.
  destruct (is_past_week parse_date repr_float today week_ending) as [[|]|e]; simpl.
  - destruct (truthy promax_val); simpl.
    + destruct (py_float parse_float promax_val) as [f|e]; simpl.
      * split.
        -- intros H. injection H as H. apply negb_true_iff in H. eauto.
        -- intros [_ [_ [f' [Hf Hz]]]]. injection Hf as <-. now rewrite Hz.
      * split; [discriminate|]. intros [_ [_ [f' [Hf _]]]]. discriminate.
    + split; [discriminate|]. intros [_ [H _]]. discriminate.
  - rewrite orb_true_r. split; [discriminate|]. intros [H _]. discriminate.
  - split; [discriminate|]. intros [H _]. discriminate.
Qed.

(** Any float price other than 0, a negative one included, passes. *)
Lemma nonzero_float_price_is_kept (today : datetime) (r : record) (f : float) :
  rget r "Units Total Price" VNone = VFloat f ->
  truthy (VFloat f) = true ->
  is_past_week parse_date repr_float today
    (rget r "Weekly Reference Logged Date" VNone) = Ok true ->
  row_kept parse_date parse_float repr_float today r = Ok true.
Proof.
  intros Hp Ht Hd. apply row_kept_true. rewrite Hp.
  split; [exact Hd|]. split; [exact Ht|].
  exists f. split; [reflexivity|].
  apply negb_true_iff. exact Ht.
Qed.

Lemma out_row_promax (r : record) :
  rget (out_row_of r) "PROMAX" VNone = rget r "Units Total Price" (VStr "").
Proof. reflexivity. Qed.

Lemma out_row_date (r : record) :
  date_key (out_row_of r) = rget r "Weekly Reference Logged Date" (VStr "").
Proof. reflexivity. Qed.

(** A kept row carries, once projected, a monetary value that is true as a
    condition and converts to a float, and a reference date that is a
    string or a number: what the aggregator's properties ask of a group. *)
Lemma kept_row_is_aggregable (today : datetime) (r : record) :
  row_kept parse_date parse_float repr_float today r = Ok true ->
  truthy (rget (out_row_of r) "PROMAX" VNone) = true /\
  (exists f, py_float parse_float (rget (out_row_of r) "PROMAX" VNone) = Ok f) /\
  (exists so, sort_of (date_key (out_row_of r)) = Some so).
Proof.
  intros H. apply row_kept_true in H.
  destruct H as [Hd [Ht [f [Hf _]]]].
  rewrite out_row_promax, out_row_date, !(rget_present _ _ (VStr "")).
  - split; [exact Ht|]. split; [eauto|].
    apply is_past_week_true in Hd. destruct Hd as [Hd _].
    destruct (rget r "Weekly Reference Logged Date" VNone); simpl in *;
      try discriminate; eauto.
  - apply is_past_week_true in Hd. tauto.
  - exact Ht.
Qed.

(** ** The main workflow *)

Lemma main_reaches_step_4 (cfg : config) (today : datetime) (ss : client)
    (matching_sheets : list sheet_info) (consolidated_records : list record) :
  String.eqb (API_TOKEN cfg) TOKEN_PLACEHOLDER = false ->
  connect cfg (API_TOKEN cfg) = Ok ss ->
  get_matching_sheets ss (REFERENCE_SHEET_ID cfg) = Ok matching_sheets ->
  records (pull_and_filter parse_date parse_float repr_float ss today
             matching_sheets) <> [] ->
  consolidate_all parse_float compensated
    (group_records shared_nan
       (iterrows
          (records (pull_and_filter parse_date parse_float repr_float ss today
                      matching_sheets)))) = Ok consolidated_records ->
  main parse_date parse_float repr_float iterrows shared_nan compensated cfg
    today =
  match try_except
          (check_archive ss (ARCHIVE_SHEET_ID cfg) consolidated_records)
          (fun _ => Some consolidated_records) with
  | None => ([EvArchiveKeysRead], Raise UnboundLocalError)
  | Some [] => ([EvArchiveKeysRead; EvSay MsgNoNewCombinations], Ok tt)
  | Some new_rows =>
      (EvArchiveKeysRead :: archive_operation cfg ss new_rows
       ++ [EvSay MsgCompleted], Ok tt)
  end.
Proof.
  intros Htok Hconn Hms Hrec Hcons. unfold main.
  rewrite Htok, Hconn, Hms.
  destruct (records (pull_and_filter parse_date parse_float repr_float ss
                       today matching_sheets)) as [|r0 rs] eqn:E.
  - congruence.
  - now rewrite Hcons.
Qed.

(** An empty set of filtered rows ends the run before step 3. *)
Lemma main_no_records (cfg : config) (today : datetime) (ss : client)
    (matching_sheets : list sheet_info) :
  String.eqb (API_TOKEN cfg) TOKEN_PLACEHOLDER = false ->
  connect cfg (API_TOKEN cfg) = Ok ss ->
  get_matching_sheets ss (REFERENCE_SHEET_ID cfg) = Ok matching_sheets ->
  records (pull_and_filter parse_date parse_float repr_float ss today
             matching_sheets) = [] ->
  main parse_date parse_float repr_float iterrows shared_nan compensated cfg
    today =
  ([EvSay MsgNoRecords], Ok tt).
Proof.
  intros Htok Hconn Hms Hrec. unfold main.
  now rewrite Htok, Hconn, Hms, Hrec.
Qed.

(** When every consolidated record is already in the archive, [new_rows] is
    never bound and the test [if not new_rows] raises. *)
Lemma main_nothing_new_raises (cfg : config) (today : datetime) (ss : client)
    (matching_sheets : list sheet_info) (consolidated_records : list record) :
  String.eqb (API_TOKEN cfg) TOKEN_PLACEHOLDER = false ->
  connect cfg (API_TOKEN cfg) = Ok ss ->
  get_matching_sheets ss (REFERENCE_SHEET_ID cfg) = Ok matching_sheets ->
  records (pull_and_filter parse_date parse_float repr_float ss today
             matching_sheets) <> [] ->
  consolidate_all parse_float compensated
    (group_records shared_nan
       (iterrows
          (records (pull_and_filter parse_date parse_float repr_float ss today
                      matching_sheets)))) = Ok consolidated_records ->
  new_consolidated_rows_of ss (ARCHIVE_SHEET_ID cfg) consolidated_records = [] ->
  main parse_date parse_float repr_float iterrows shared_nan compensated cfg
    today =
  ([EvArchiveKeysRead], Raise UnboundLocalError).
Proof.
  intros Htok Hconn Hms Hrec Hcons Hnew.
  rewrite (main_reaches_step_4 _ _ Htok Hconn Hms Hrec Hcons).
  unfold check_archive. now rewrite Hnew.
Qed.

(** C8: when reading the archive raises, the key set comes back empty,
    every consolidated record is kept as new, and the run goes on to the
    archive operation with all of them. *)
Theorem archive_read_failure_keeps_all (cfg : config) (today : datetime)
    (ss : client) (matching_sheets : list sheet_info)
    (consolidated_records : list record) (e : exn) :
  String.eqb (API_TOKEN cfg) TOKEN_PLACEHOLDER = false ->
  connect cfg (API_TOKEN cfg) = Ok ss ->
  get_matching_sheets ss (REFERENCE_SHEET_ID cfg) = Ok matching_sheets ->
  records (pull_and_filter parse_date parse_float repr_float ss today
             matching_sheets) <> [] ->
  consolidate_all parse_float compensated
    (group_records shared_nan
       (iterrows
          (records (pull_and_filter parse_date parse_float repr_float ss today
                      matching_sheets)))) = Ok consolidated_records ->
  consolidated_records <> [] ->
  get_sheet ss (ARCHIVE_SHEET_ID cfg) = Raise e ->
  get_archive_existing_keys ss (ARCHIVE_SHEET_ID cfg) unique_key_cols =
    ([], unique_key_cols) /\
  new_consolidated_rows_of ss (ARCHIVE_SHEET_ID cfg) consolidated_records =
    consolidated_records /\
  main parse_date parse_float repr_float iterrows shared_nan compensated cfg
    today =
    (EvArchiveKeysRead :: archive_operation cfg ss consolidated_records
     ++ [EvSay MsgCompleted], Ok tt).
Proof.
  intros Htok Hconn Hms Hrec Hcons Hne Harch.
  assert (K : get_archive_existing_keys ss (ARCHIVE_SHEET_ID cfg) unique_key_cols
              = ([], unique_key_cols)).
  { unfold get_archive_existing_keys. now rewrite Harch. }
  assert (N : new_consolidated_rows_of ss (ARCHIVE_SHEET_ID cfg)
                consolidated_records = consolidated_records).
  { unfold new_consolidated_rows_of. rewrite K. apply dedup_no_keys. }
  split; [exact K|]. split; [exact N|].
  rewrite (main_reaches_step_4 _ _ Htok Hconn Hms Hrec Hcons).
  unfold check_archive. rewrite N.
  destruct consolidated_records; [congruence | reflexivity].
Qed.

End PipelineFacts.

(** ** Archive writer *)

Lemma title_map_get (sh : sheet) (t : string) (cid : Z) :
  dict_get String.eqb (title_map sh) t = Some cid ->
  In (mk_column cid t) (columns sh).
Proof.
  unfold title_map. intros H.
  apply (dict_get_of String.eqb String.eqb_eq) in H.
  apply in_map_iff in H. destruct H as [[i n] [E Hc]].
  simpl in E. now injection E as -> ->.
Qed.

Lemma cells_of_In (col_map : list (string * Z)) (rec : record) (c : cell) :
  In c (cells_of col_map rec) <->
  exists col, In (col, cell_value c) rec /\
              truthy (cell_value c) = true /\
              dict_get String.eqb col_map (archive_col_name col) = Some (column_id c).
Proof.
  unfold cells_of. rewrite in_flat_map. split.
  - intros [[col val] [Hin Hc]].
    destruct (truthy val) eqn:Ht; [|destruct Hc].
    destruct (dict_get String.eqb col_map (archive_col_name col)) as [cid|] eqn:Hg;
      [|destruct Hc].
    destruct Hc as [<- | []]. simpl. eauto.
  - intros [col [Hin [Ht Hg]]]. exists (col, cell_value c).
    split; [exact Hin|]. rewrite Ht, Hg. left. now destruct c.
Qed.

Lemma archive_operation_live (cfg : config) (ss : client) (rec : record)
    (new_rows : list record) :
  DRY_RUN cfg = false ->
  archive_operation cfg ss (rec :: new_rows) =
  [EvArchiveOpenForWrite; EvSay MsgWriteError].
Proof.
  intros Hdry. unfold archive_operation. rewrite Hdry.
  destruct (get_sheet ss (ARCHIVE_SHEET_ID cfg)); reflexivity.
Qed.

(** C10, where the code departs from it: the cells of a new record are put
    together as described, one for each field whose value is true as a
    condition and whose archive-side column name is a column of the archive,
    so that a PROMAX of 0 gives no cell; but the row that is to carry them
    is never made.  [Row(cells=cells, to_bottom=True)] raises [TypeError] at
    the first record, the handler of step 5 reports it, and [add_rows] is
    not called: a live run appends nothing. *)
Theorem live_write_appends_nothing :
  (forall cfg ss rec new_rows,
     DRY_RUN cfg = false ->
     archive_operation cfg ss (rec :: new_rows) =
     [EvArchiveOpenForWrite; EvSay MsgWriteError]) /\
  (forall col_map rec c,
     In c (cells_of col_map rec) <->
     exists col, In (col, cell_value c) rec /\
                 truthy (cell_value c) = true /\
                 dict_get String.eqb col_map (archive_col_name col)
                 = Some (column_id c)) /\
  (forall col_map total rest,
     truthy total = false ->
     cells_of col_map (("PROMAX", total) :: rest) = cells_of col_map rest) /\
  cells_of (title_map Example.empty_archive) Example.j1_record =
    [ mk_cell 34 (VFloat 150); mk_cell 31 (VStr "J1"); mk_cell 32 (VStr "A");
      mk_cell 33 (VStr "WR1"); mk_cell 35 (VStr "2024-01-03") ] /\
  Example.run
    (Example.workspace (Example.crew_sheet Example.j1_rows)
       (Ok Example.empty_archive))
    false Example.wednesday =
  ([ EvArchiveKeysRead; EvArchiveOpenForWrite; EvSay MsgWriteError;
     EvSay MsgCompleted ], Ok tt).
Proof.
  split; [|split; [|split; [|split]]].
  - intros. now apply archive_operation_live.
  - intros. apply cells_of_In.
  - intros col_map total rest Ht. unfold cells_of. simpl. now rewrite Ht.
  - vm_compute. reflexivity.
  - vm_compute. reflexivity.
Qed.

(** ** The model at work *)

(** C2, where the code departs from it: a row priced -5 and dated in a past
    week is not counted as having a PROMAX above 0 and is kept all the
    same: it is the one record step 2 gathers from its sheet, and a dry run
    announces one consolidated record to append. *)
Theorem negative_price_row_is_kept :
  has_promax parse_int_float (VInt (-5)) = false /\
  row_kept parse_iso_date parse_int_float repr_any Example.wednesday
    Example.negative_row = Ok true /\
  records
    (pull_and_filter parse_iso_date parse_int_float repr_any
       (Example.workspace (Example.crew_sheet Example.negative_rows)
          (Ok Example.empty_archive))
       Example.wednesday [mk_info 2 "Crew A"]) =
  [out_row_of Example.negative_row] /\
  Example.run
    (Example.workspace (Example.crew_sheet Example.negative_rows)
       (Ok Example.empty_archive))
    true Example.wednesday =
  ([EvArchiveKeysRead; EvSay (MsgDryRun 1); EvSay MsgCompleted], Ok tt).
Proof. repeat split; vm_compute; reflexivity. Qed.

(** C5, where the code departs from it: on Wednesday 2024-01-10 at 15:30
    the boundary is Sunday 2024-01-07 at 15:30, not at 00:00, so that
    2024-01-07, a day of the current week, counts as past; on Sunday
    2024-01-07 at 09:00 the boundary is that very moment. *)
Theorem week_start_keeps_time_of_day :
  week_start parse_iso_date repr_any (inl Example.wednesday)
    = Ok (naive 2024 1 7 15 30 0) /\
  claimed_week_start Example.wednesday = naive 2024 1 7 0 0 0 /\
  week_start parse_iso_date repr_any (inl Example.wednesday)
    <> Ok (claimed_week_start Example.wednesday) /\
  is_past_week parse_iso_date repr_any Example.wednesday (VStr "2024-01-07")
    = Ok true /\
  week_start parse_iso_date repr_any (inl Example.sunday) = Ok Example.sunday /\
  claimed_week_start Example.sunday = naive 2024 1 7 0 0 0.
Proof.
  repeat split; try (vm_compute; reflexivity); vm_compute; discriminate.
Qed.

(** C9, where the code departs from it: when the archive already holds the
    key of the only consolidated record, the run reads the archive keys and
    then ends in an uncaught [UnboundLocalError], without the closing
    message; with no filtered row it ends with its message before any
    archive event. *)
Theorem nothing_new_ends_in_error :
  Example.run
    (Example.workspace (Example.crew_sheet Example.j1_rows) (Ok Example.j1_archived))
    false Example.wednesday
  = ([EvArchiveKeysRead], Raise UnboundLocalError) /\
  Example.run
    (Example.workspace (Example.crew_sheet []) (Ok Example.j1_archived))
    false Example.wednesday
  = ([EvSay MsgNoRecords], Ok tt).
Proof. split; vm_compute; reflexivity. Qed.

(** The archive holds (J1, A, WR1): the record for that key is not new. *)
Lemma dedup_idempotent_witness :
  dedup
    (fst (get_archive_existing_keys
            (Example.workspace (Example.crew_sheet []) (Ok Example.j1_archived))
            3 unique_key_cols))
    unique_key_cols [Example.j1_record] = [].
Proof.
  apply dedup_idempotent.
  intros rec [<- | []]. reflexivity.
Defined.

(** In the example workspace the crew sheet matches, the archive lacks
    reference columns and the sheet that cannot be read is left out. *)
Lemma get_matching_sheets_superset_test_witness :
  exists matching_sheets,
    get_matching_sheets
      (Example.workspace (Example.crew_sheet []) (Ok Example.j1_archived)) 1
    = Ok matching_sheets /\
    In (mk_info 2 "Crew A") matching_sheets /\
    ~ In (mk_info 3 "Archive") matching_sheets /\
    ~ In (mk_info 4 "Gone") matching_sheets.
Proof.
  destruct (get_matching_sheets_superset_test
              (Example.workspace (Example.crew_sheet []) (Ok Example.j1_archived))
              1 eq_refl) as [ms [E [_ H]]].
  assert (H2 := H (mk_info 2 "Crew A") ltac:(cbn; tauto)).
  assert (H3 := H (mk_info 3 "Archive") ltac:(cbn; tauto)).
  assert (H4 := H (mk_info 4 "Gone") ltac:(cbn; tauto)).
  cbn in H2, H3, H4.
  exists ms. split; [exact E|]. split; [|split].
  - apply H2. intros c Hc. tauto.
  - intros K0. pose proof (proj1 H3 K0 "Units Total Price" (or_introl eq_refl)) as K.
    repeat (destruct K as [K | K]; [discriminate K|]). exact K.
  - exact H4.
Defined.

(** Two filtered rows of one key with 100 and 50 give one record, whose
    PROMAX is 150. *)
Lemma total_promax_sums_group_witness :
  exists rec,
    consolidate parse_int_float true [VStr "J1"; VStr "A"; VStr "WR1"]
      Example.dated_group = Ok rec /\
    dict_get String.eqb rec "PROMAX" = Some (VFloat 150).
Proof.
  exact (proj1 (proj2 (total_promax_sums_group parse_int_float true))
           (VStr "J1") (VStr "A") (VStr "WR1") Example.dated_group
           [100%float; 50%float] SStr
           ltac:(discriminate) ltac:(repeat constructor)
           ltac:(repeat constructor)).
Defined.

(** C4, as stated, fails on two rows of one Group Key priced 100 and 50
    that both pass the filter, one dated "2024-01-03" and one 20240103:
    step 2 gathers both, they form one group, and there is no consolidated
    record with PROMAX 150, nor any other: [max] raises [TypeError] on the
    two dates and the run ends there. *)
Lemma summed_record_claim_fails :
  Forall
    (fun r => row_kept parse_iso_or_compact parse_int_float repr_any
                Example.wednesday r = Ok true)
    Example.mixed_rows /\
  group_records true Example.mixed_group =
    [([VStr "J1"; VStr "A"; VStr "WR1"], Example.mixed_group)] /\
  ~ (exists rec,
       consolidate parse_int_float true [VStr "J1"; VStr "A"; VStr "WR1"]
         Example.mixed_group = Ok rec /\
       dict_get String.eqb rec "PROMAX" = Some (VFloat 150)).
Proof.
  split; [|split].
  - repeat constructor.
  - vm_compute. reflexivity.
  - intros [rec [H _]]. vm_compute in H. discriminate H.
Qed.

(** The group of the example takes its fields from the second row, the
    first of the two with the greatest date string. *)
Lemma consolidate_copies_latest_witness :
  exists rec,
    consolidate parse_int_float true [VStr "J1"; VStr "A"; VStr "WR1"]
      Example.j1_group = Ok rec /\
    dict_get String.eqb rec "Location" = Some (VStr "Depot") /\
    dict_get String.eqb rec "PROMAX" = Some (VFloat 175).
Proof.
  destruct (@consolidate_copies_latest parse_int_float true
              (VStr "J1") (VStr "A") (VStr "WR1") Example.j1_group SStr)
    as [rec [pre [latest [post [E _]]]]].
  - discriminate.
  - repeat constructor.
  - repeat constructor.
  - exists rec. split; [exact E|].
    vm_compute in E. injection E as <-. split; reflexivity.
Defined.

(** C6, as stated, fails on the same two rows read from a crew sheet: they
    are the records of step 2 and one non-empty group, no member of which
    the consolidated record copies its fields from, since there is no such
    record; the run ends in the [TypeError] that [max] raises. *)
Lemma latest_member_claim_fails :
  records
    (pull_and_filter parse_iso_or_compact parse_int_float repr_any
       (Example.workspace (Example.crew_sheet Example.mixed_source_rows)
          (Ok Example.empty_archive))
       Example.wednesday [mk_info 2 "Crew A"]) = Example.mixed_group /\
  main parse_iso_or_compact parse_int_float repr_any iterrows_id true true
    (Example.configuration
       (Example.workspace (Example.crew_sheet Example.mixed_source_rows)
          (Ok Example.empty_archive)) true)
    Example.wednesday = ([], Raise TypeError) /\
  ~ (exists rec latest,
       In latest Example.mixed_group /\
       consolidate parse_int_float true [VStr "J1"; VStr "A"; VStr "WR1"]
         Example.mixed_group = Ok rec /\
       forall col, In col copied_fields ->
         dict_get String.eqb rec col = Some (rget latest col (VStr ""))).
Proof.
  split; [|split].
  - vm_compute. reflexivity.
  - vm_compute. reflexivity.
  - intros [rec [latest [_ [H _]]]]. vm_compute in H. discriminate H.
Qed.

(** A run whose archive cannot be read goes on to the write with the
    consolidated record; the write then fails on the same archive. *)
Lemma archive_read_failure_keeps_all_witness :
  Example.run
    (Example.workspace (Example.crew_sheet Example.j1_rows) (Raise ApiError))
    false Example.wednesday
  = ([ EvArchiveKeysRead; EvArchiveOpenForWrite; EvSay MsgWriteError;
       EvSay MsgCompleted ], Ok tt).
Proof.
  unfold Example.run.
  edestruct (@archive_read_failure_keeps_all parse_iso_date parse_int_float
               repr_any iterrows_id true true
               (Example.configuration
                  (Example.workspace (Example.crew_sheet Example.j1_rows)
                     (Raise ApiError)) false)
               Example.wednesday) as [_ [_ H]].
  - reflexivity.
  - reflexivity.
  - reflexivity.
  - vm_compute. discriminate.
  - vm_compute. reflexivity.
  - discriminate.
  - reflexivity.
  - rewrite H. reflexivity.
Defined.

(** A live run on the empty archive, with one new record: the archive is
    opened, the error is reported, no row is sent. *)
Lemma live_write_appends_nothing_witness :
  archive_operation
    (Example.configuration
       (Example.workspace (Example.crew_sheet []) (Ok Example.empty_archive))
       false)
    (Example.workspace (Example.crew_sheet []) (Ok Example.empty_archive))
    [Example.j1_record]
  = [EvArchiveOpenForWrite; EvSay MsgWriteError].
Proof.
  exact (proj1 live_write_appends_nothing
           (Example.configuration
              (Example.workspace (Example.crew_sheet [])
                 (Ok Example.empty_archive)) false)
           (Example.workspace (Example.crew_sheet [])
              (Ok Example.empty_archive))
           Example.j1_record [] eq_refl).
Defined.

(* ================================================================== *)
(** * Further properties of the code *)

(** ** Sheet discovery *)

(** X1: the paging loop gathers, in order, every full page and then the
    first page that is short; it stops there, at a page that cannot be
    fetched or at the end, and keeps what it has gathered. *)
Theorem fetch_all_sheets_pages (full : list (list sheet_info))
    (rest : list (result (list sheet_info))) (all_sheets : list sheet_info) :
  Forall (fun p => List.length p = page_size) full ->
  match rest with
  | Ok p :: _ => (List.length p < page_size)%nat
  | _ => True
  end ->
  fetch_all_sheets (map Ok full ++ rest) all_sheets =
  all_sheets ++ List.concat full ++ match rest with Ok p :: _ => p | _ => [] end.
Proof.
  intros Hfull Hrest. revert all_sheets.
  induction Hfull as [|p full Hp _ IH]; intros all_sheets; simpl.
  - destruct rest as [|[[|s p]|e] rest]; simpl; rewrite ?app_nil_r; try reflexivity.
    apply Nat.ltb_lt in Hrest. simpl in Hrest. now rewrite Hrest.
  - destruct p as [|s p]; [discriminate Hp|].
    rewrite Hp, Nat.ltb_irrefl, IH, <- !app_assoc. reflexivity.
Qed.

Lemma issubset_refl (a : list string) : issubset a a = true.
Proof. apply issubset_spec. auto. Qed.

(** X2: the reference sheet, when the workspace lists it, is one of the
    matching sheets, so its own rows are pulled as source rows. *)
Theorem reference_sheet_matches_itself (ss : client) (reference_sheet_id : Z)
    (ref_sheet : sheet) (name : string) :
  get_sheet ss reference_sheet_id = Ok ref_sheet ->
  In (mk_info reference_sheet_id name) (fetch_all_sheets (list_pages ss) []) ->
  exists matching_sheets,
    get_matching_sheets ss reference_sheet_id = Ok matching_sheets /\
    In (mk_info reference_sheet_id name) matching_sheets.
Proof.
  intros Href Hin. unfold get_matching_sheets. rewrite Href. simpl.
  eexists. split; [reflexivity|].
  apply match_sheets_In. split; [exact Hin|].
  exists ref_sheet. split; [exact Href | apply issubset_refl].
Qed.

(** ** Row extraction *)

Lemma find_snoc {A} (p : A -> bool) (l : list A) (x : A) :
  find p (l ++ [x]) =
  match find p l with
  | Some y => Some y
  | None => if p x then Some x else None
  end.
Proof.
  induction l as [|y l IH]; simpl.
  - reflexivity.
  - destruct (p y); [reflexivity | exact IH].
Qed.

Lemma row_dict_fold (col_map : list (Z * string)) (col_name : string)
    (r : row) (d : record) :
  dict_get String.eqb
    (fold_left
       (fun row_dict c =>
          match dict_get Z.eqb col_map (column_id c) with
          | Some n =>
              if negb (String.eqb n "")
              then dict_set String.eqb row_dict n (cell_value c)
              else row_dict
          | None => row_dict
          end) r d) col_name =
  match find (names_cell col_map col_name) (rev r) with
  | Some c => Some (cell_value c)
  | None => dict_get String.eqb d col_name
  end.
Proof.
  revert d. induction r as [|c r IH]; intros d; simpl.
  - reflexivity.
  - rewrite IH, find_snoc.
    destruct (find (names_cell col_map col_name) (rev r)); [reflexivity|].
    unfold names_cell.
    destruct (dict_get Z.eqb col_map (column_id c)) as [n|]; [|reflexivity].
    destruct (String.eqb n "") eqn:En; simpl.
    + now rewrite andb_false_r.
    + rewrite andb_true_r, (dict_get_set String.eqb String.eqb_eq).
      now destruct (String.eqb col_name n).
Qed.

(** X3: the dictionary of a row maps a column name to the value of the last
    cell whose column has that name; cells of unknown columns and of
    columns without a name leave no entry. *)
Theorem row_dict_last_cell (col_map : list (Z * string)) (r : row)
    (col_name : string) :
  dict_get String.eqb (row_dict_of col_map r) col_name =
  option_map cell_value (find (names_cell col_map col_name) (rev r)).
Proof.
  unfold row_dict_of. rewrite row_dict_fold.
  now destruct (find (names_cell col_map col_name) (rev r)).
Qed.

(** ** The row loop *)

Section RowLoopFacts.

Variable parse_date : string -> result datetime.
Variable parse_float : string -> result float.
Variable repr_float : float -> string.

Local Abbreviation week_ending_of r := (rget r "Weekly Reference Logged Date" VNone).
Local Abbreviation is_past_week' := (is_past_week parse_date repr_float).
Local Abbreviation process_row' := (process_row parse_date parse_float repr_float).
Local Abbreviation process_rows' := (process_rows parse_date parse_float repr_float).
Local Abbreviation appended' := (appended parse_date parse_float repr_float).

Lemma week_start_in_range (today : datetime) :
  7 <= ordinal today <= MAXORDINAL ->
  exists ws, week_start parse_date repr_float (inl today) = Ok ws /\
             utcoffset ws = utcoffset today.
Proof.
  intros Hr. destruct (week_start_sunday parse_date repr_float today Hr)
    as [d [E [_ [_ [_ Ho]]]]]. eauto.
Qed.

(** X4: with a naive, in-range [today], [is_past_week] raises only
    [TypeError], and exactly for a value that is true as a condition and
    that the parser reads as a timezone-aware datetime; for any other value
    it returns. *)
Theorem is_past_week_raises_iff (today : datetime) (date_str : value) (e : exn) :
  utcoffset today = None ->
  7 <= ordinal today <= MAXORDINAL ->
  (is_past_week' today date_str = Raise e <->
   e = TypeError /\ truthy date_str = true /\
   exists date_val off,
     parse_date (py_str repr_float date_str) = Ok date_val /\
     utcoffset date_val = Some off).
Proof.
  intros Hnaive Hr.
  destruct (week_start_in_range today Hr) as [ws [Ews Hws]].
  rewrite Hnaive in Hws.
  unfold is_past_week. rewrite Ews. simpl.
  destruct (truthy date_str); simpl.
  - destruct (parse_date (py_str repr_float date_str)) as [d|e'].
    + unfold dt_lt. rewrite Hws.
      destruct (utcoffset d) as [off|] eqn:Ed.
      * split.
        -- intros H. injection H as <-. eauto 6.
        -- intros [-> _]. reflexivity.
      * split; [discriminate|].
        intros [_ [_ [d' [off [Hd Ho]]]]]. injection Hd as <-. congruence.
    + split; [discriminate|].
      intros [_ [_ [d' [off [Hd _]]]]]. discriminate.
  - split; [discriminate|]. intros [_ [H _]]. discriminate.
Qed.

Lemma row_kept_not_raising (today : datetime) (r : record) :
  is_ok (is_past_week' today (week_ending_of r)) = true ->
  exists b, row_kept parse_date parse_float repr_float today r = Ok b.
Proof.
  unfold row_kept.
  change (rget r (column_map "Weekly Reference Logged Date") VNone)
    with (week_ending_of r).
  destruct (is_past_week' today (week_ending_of r)) as [b|e]; [|discriminate].
  intros _. simpl.
  destruct (negb (truthy (rget r (column_map "PROMAX") VNone)) || negb b); eauto.
Qed.

Lemma process_row_records (today : datetime) (t : tally) (r : record) :
  is_ok (is_past_week' today (week_ending_of r)) = true ->
  snd (process_row' today t r) = None /\
  records (fst (process_row' today t r)) =
  records t ++ (if appended' today r then [out_row_of r] else []).
Proof.
  intros Hok. destruct (row_kept_not_raising today r Hok) as [b Hb].
  unfold process_row, appended. rewrite Hb.
  change (rget r (column_map "Weekly Reference Logged Date") VNone)
    with (week_ending_of r).
  destruct (is_past_week' today (week_ending_of r)) as [p|e]; [|discriminate].
  destruct (has_promax parse_float (rget r (column_map "PROMAX") VNone));
    destruct p, b; simpl; rewrite ?app_nil_r; auto.
Qed.

Lemma process_row_raises (today : datetime) (t : tally) (r : record) (e : exn) :
  is_past_week' today (week_ending_of r) = Raise e ->
  snd (process_row' today t r) = Some e /\
  records (fst (process_row' today t r)) = records t.
Proof.
  intros H. unfold process_row.
  change (rget r (column_map "Weekly Reference Logged Date") VNone)
    with (week_ending_of r).
  rewrite H.
  now destruct (has_promax parse_float (rget r (column_map "PROMAX") VNone)).
Qed.



End RowLoopFacts.

(** ** Step 2 as a whole *)

Section FilterFacts.

Variable parse_date : string -> result datetime.
Variable parse_float : string -> result float.
Variable repr_float : float -> string.

Local Abbreviation row_kept' := (row_kept parse_date parse_float repr_float).
Local Abbreviation process_row' := (process_row parse_date parse_float repr_float).
Local Abbreviation process_rows' := (process_rows parse_date parse_float repr_float).
Local Abbreviation process_sheet' := (process_sheet parse_date parse_float repr_float).
Local Abbreviation pull_and_filter' :=
  (pull_and_filter parse_date parse_float repr_float).

Lemma row_kept_past (today : datetime) (r : record) (p : bool) :
  row_kept' today r = Ok true ->
  is_past_week parse_date repr_float today
    (rget r (column_map "Weekly Reference Logged Date") VNone) = Ok p ->
  p = true.
Proof.
  intros K P. apply row_kept_true in K. destruct K as [K _].
  change (rget r (column_map "Weekly Reference Logged Date") VNone)
    with (rget r "Weekly Reference Logged Date" VNone) in P.
  congruence.
Qed.

Lemma process_row_tally (today : datetime) (t : tally) (r : record) (n : nat) :
  tally_ok t (S n) -> tally_ok (fst (process_row' today t r)) n.
Proof.
  unfold tally_ok, process_row.
  destruct (is_past_week parse_date repr_float today
              (rget r (column_map "Weekly Reference Logged Date") VNone))
    as [p|e] eqn:P;
    destruct (has_promax parse_float (rget r (column_map "PROMAX") VNone));
    cbn [fst records total_rows_processed rows_with_promax
         rows_with_past_dates rows_meeting_criteria]; try lia;
    destruct (row_kept' today r) as [[|]|e'] eqn:K;
    try (rewrite (row_kept_past today r K P));
    destruct p;
    cbn [fst records total_rows_processed rows_with_promax
         rows_with_past_dates rows_meeting_criteria];
    rewrite ?length_app; simpl; try lia;
    discriminate (row_kept_past today r K P).
Qed.

Lemma tally_ok_weaken (t : tally) (n m : nat) :
  (m <= n)%nat -> tally_ok t n -> tally_ok t m.
Proof. unfold tally_ok. lia. Qed.

Lemma process_rows_tally (today : datetime) (rs : list record) (t : tally) :
  tally_ok t (List.length rs) -> tally_ok (fst (process_rows' today t rs)) 0.
Proof.
  revert t. induction rs as [|r rs IH]; intros t H; simpl.
  - exact H.
  - pose proof (@process_row_tally today t r _ H) as H1.
    destruct (process_row' today t r) as [t' [e|]]; simpl in *.
    + eapply tally_ok_weaken; [|exact H1]. lia.
    + now apply IH.
Qed.

Lemma process_sheet_tally (ss : client) (today : datetime) (t : tally)
    (s : sheet_info) :
  tally_ok t 0 -> tally_ok (process_sheet' ss today t s) 0.
Proof.
  intros H. unfold process_sheet.
  destruct (get_sheet_data ss (sheet_id s)) as [rs|e]; [|exact H].
  apply process_rows_tally. unfold tally_ok in *. simpl. lia.
Qed.

(** X7: at the end of step 2 the count of rows meeting the criteria is the
    number of records, it is at most the count of rows with a past date, and
    neither that count nor the count of rows with a PROMAX above 0 exceeds the
    number of rows processed. *)
Theorem pull_and_filter_tally (ss : client) (today : datetime)
    (matching_sheets : list sheet_info) :
  let t := pull_and_filter' ss today matching_sheets in
  (rows_meeting_criteria t = List.length (records t) /\
   rows_meeting_criteria t <= rows_with_past_dates t /\
   rows_with_past_dates t <= total_rows_processed t /\
   rows_with_promax t <= total_rows_processed t)%nat.
Proof.
  assert (G : forall ms t, tally_ok t 0 ->
                tally_ok (fold_left (process_sheet' ss today) ms t) 0).
  { induction ms as [|s ms IH]; intros t H; simpl; [exact H|].
    apply IH. now apply process_sheet_tally. }
  specialize (G matching_sheets tally0).
  unfold pull_and_filter, tally_ok in *. simpl in G.
  rewrite !Nat.add_0_r in G. apply G. lia.
Qed.

(** X8: a matching sheet whose rows cannot be read changes nothing: the
    records and the counters are those of a run without it. *)
Theorem unreadable_sheet_is_skipped (ss : client) (today : datetime)
    (before : list sheet_info) (s : sheet_info) (after : list sheet_info)
    (e : exn) :
  get_sheet ss (sheet_id s) = Raise e ->
  pull_and_filter' ss today (before ++ s :: after) =
  pull_and_filter' ss today (before ++ after).
Proof.
  intros H. unfold pull_and_filter. rewrite !fold_left_app. simpl.
  f_equal. unfold process_sheet, get_sheet_data. now rewrite H.
Qed.

Lemma process_row_sound (today : datetime) (t : tally) (r : record)
    (rec : record) :
  In rec (records (fst (process_row' today t r))) ->
  In rec (records t) \/ (row_kept' today r = Ok true /\ rec = out_row_of r).
Proof.
  unfold process_row.
  destruct (is_past_week parse_date repr_float today
              (rget r (column_map "Weekly Reference Logged Date") VNone))
    as [p|e];
    destruct (has_promax parse_float (rget r (column_map "PROMAX") VNone));
    simpl; auto;
    destruct (row_kept' today r) as [[|]|e']; destruct p; simpl; auto;
    intros H; apply in_app_or in H; destruct H as [H | [<- | []]]; auto.
Qed.

Lemma process_rows_sound (today : datetime) (rs : list record) (t : tally)
    (rec : record) :
  In rec (records (fst (process_rows' today t rs))) ->
  In rec (records t) \/
  exists r, In r rs /\ row_kept' today r = Ok true /\ rec = out_row_of r.
Proof.
  revert t. induction rs as [|r rs IH]; intros t; simpl; [auto|].
  pose proof (process_row_sound today t r rec) as H1.
  destruct (process_row' today t r) as [t' [e|]]; simpl in *.
  - intros H. destruct (H1 H) as [H2 | H2]; eauto.
  - intros H. destruct (IH t' H) as [H2 | [r' [Hin H2]]].
    + destruct (H1 H2) as [H3 | H3]; eauto.
    + eauto.
Qed.


End FilterFacts.

(** ** Step 3: grouping *)

Lemma dict_get_none_all {K V} (keqb : K -> K -> bool) (d : @dict K V) (k : K) :
  dict_get keqb d k = None -> forall k', In k' (map fst d) -> keqb k k' = false.
Proof.
  induction d as [|[k0 v0] d IH]; simpl; [tauto|].
  destruct (keqb k k0) eqn:E; [discriminate|].
  intros H k' [<- | Hin]; auto.
Qed.

Lemma dict_set_split {K V} (keqb : K -> K -> bool) (d : @dict K V) (k : K)
    (v v' : V) :
  dict_get keqb d k = Some v ->
  exists d1 k' d2,
    d = d1 ++ (k', v) :: d2 /\ keqb k k' = true /\
    dict_set keqb d k v' = d1 ++ (k', v') :: d2.
Proof.
  induction d as [|[k0 v0] d IH]; simpl; [discriminate|].
  destruct (keqb k k0) eqn:E.
  - intros H. injection H as ->. exists [], k0, d. auto.
  - intros H. destruct (IH H) as [d1 [k' [d2 [-> [Hk Hs]]]]].
    exists ((k0, v0) :: d1), k', d2. simpl. rewrite Hs. auto.
Qed.

Lemma ForallOrdPairs_app_r {A} (R : A -> A -> Prop) (l1 l2 : list A) :
  ForallOrdPairs R (l1 ++ l2) -> ForallOrdPairs R l2.
Proof.
  induction l1 as [|a l1 IH]; simpl; [auto|].
  intros H. inversion H; subst. auto.
Qed.

Lemma ForallOrdPairs_snoc {A} (R : A -> A -> Prop) (l : list A) (x : A) :
  ForallOrdPairs R l -> (forall a, In a l -> R a x) ->
  ForallOrdPairs R (l ++ [x]).
Proof.
  induction 1 as [|a l Ha _ IH]; intros Hnew; simpl.
  - repeat constructor.
  - constructor.
    + apply Forall_app. split; [exact Ha|].
      constructor; [|constructor]. apply Hnew. now left.
    + apply IH. intros a' Ha'. apply Hnew. now right.
Qed.

Lemma ForallOrdPairs_impl {A} (R S : A -> A -> Prop) (l : list A) :
  (forall a b, R a b -> S a b) -> ForallOrdPairs R l -> ForallOrdPairs S l.
Proof.
  intros HRS. induction 1 as [|a l Ha _ IH]; constructor; [|exact IH].
  eapply Forall_impl; [|exact Ha]. intros b. apply HRS.
Qed.

(** A float that [is_nan] holds of has no exact value. *)
Lemma SFeqb_refl (s : spec_float) : s <> S754_nan -> SFeqb s s = true.
Proof.
  destruct s as [sg|sg| |sg m e]; intros H; try congruence.
  - reflexivity.
  - destruct sg; reflexivity.
  - unfold SFeqb, SFcompare.
    rewrite Z.compare_refl, Pos.compare_cont_refl.
    destruct sg; reflexivity.
Qed.

Lemma float_exact_nan (f : float) :
  PrimFloat.is_nan f = true -> float_exact f = XNaN.
Proof.
  unfold PrimFloat.is_nan, float_exact. rewrite eqb_spec. intros H.
  destruct (Prim2SF f) eqn:E; try reflexivity;
    rewrite SFeqb_refl in H by discriminate; discriminate H.
Qed.

Lemma nan_differs (a b : value) :
  is_nan_value a = true -> py_eq a b = false.
Proof.
  destruct a as [| | |f|]; try discriminate. cbn [is_nan_value]. intros H.
  destruct b; cbn [py_eq num_of]; try reflexivity;
    now rewrite (float_exact_nan _ H).
Qed.

Section GroupingFacts.

Variable shared_nan : bool.

Local Abbreviation key_eq := (dict_key_eq shared_nan).
Local Abbreviation keys_eq := (tuple_key_eq shared_nan).

Lemma dict_key_eq_sym (a b : value) : key_eq a b = key_eq b a.
Proof.
  unfold dict_key_eq. rewrite (py_eq_sym a b).
  destruct (is_nan_value a), (is_nan_value b), shared_nan; reflexivity.
Qed.

Lemma dict_key_eq_cases (a b : value) :
  key_eq a b = true ->
  py_eq a b = true \/
  (shared_nan = true /\ is_nan_value a = true /\ is_nan_value b = true).
Proof.
  unfold dict_key_eq. rewrite orb_true_iff, !andb_true_iff. tauto.
Qed.

Lemma dict_key_eq_trans (a b c : value) :
  key_eq a b = true -> key_eq b c = true -> key_eq a c = true.
Proof.
  intros Hab Hbc.
  destruct (dict_key_eq_cases _ _ Hab) as [E1 | [Hs [Ha Hb]]];
    destruct (dict_key_eq_cases _ _ Hbc) as [E2 | [Hs' [Hb' Hc]]].
  - unfold dict_key_eq. now rewrite (py_eq_trans _ _ _ E1 E2).
  - rewrite py_eq_sym, (@nan_differs b a Hb') in E1. discriminate E1.
  - rewrite (@nan_differs b c Hb) in E2. discriminate E2.
  - unfold dict_key_eq. rewrite Hs, Ha, Hc. apply orb_true_r.
Qed.

Lemma tuple_key_eq_sym (a b : list value) : keys_eq a b = keys_eq b a.
Proof.
  revert b; induction a as [|x a IH]; intros [|y b]; simpl; try reflexivity.
  now rewrite dict_key_eq_sym, IH.
Qed.

Lemma tuple_key_eq_trans (a b c : list value) :
  keys_eq a b = true -> keys_eq b c = true -> keys_eq a c = true.
Proof.
  revert b c; induction a as [|x a IH]; intros [|y b] [|z c]; simpl;
    try discriminate; auto.
  rewrite !andb_true_iff. intros [H1 H2] [H3 H4]. split.
  - eapply dict_key_eq_trans; eassumption.
  - eapply IH; eassumption.
Qed.

(** Keys that are equal are keys the dictionary takes for one another. *)
Lemma tuple_eq_key_eq (a b : list value) :
  tuple_eq a b = true -> keys_eq a b = true.
Proof.
  revert b; induction a as [|x a IH]; intros [|y b]; simpl;
    try discriminate; auto.
  rewrite !andb_true_iff. intros [H1 H2]. split; [|now apply IH].
  unfold dict_key_eq. now rewrite H1.
Qed.

Lemma keys_apart_tuple_eq (keys : list (list value)) :
  keys_apart shared_nan keys ->
  ForallOrdPairs (fun a b => tuple_eq b a = false) keys.
Proof.
  apply ForallOrdPairs_impl. intros a b H.
  destruct (tuple_eq b a) eqn:E; [|reflexivity].
  now rewrite (tuple_eq_key_eq _ _ E) in H.
Qed.

Lemma keys_apart_snoc (keys : list (list value)) (key : list value) :
  keys_apart shared_nan keys ->
  (forall k, In k keys -> keys_eq key k = false) ->
  keys_apart shared_nan (keys ++ [key]).
Proof.
  unfold keys_apart. intros Ha Hnew.
  now apply (@ForallOrdPairs_snoc _ (fun a b => keys_eq b a = false)).
Qed.

Lemma group_add_spec (grouped : list (list value * list record)) (rec : record) :
  Forall (group_ok shared_nan) grouped ->
  keys_apart shared_nan (map fst grouped) ->
  Forall (group_ok shared_nan) (group_add shared_nan grouped rec) /\
  keys_apart shared_nan (map fst (group_add shared_nan grouped rec)) /\
  Permutation (List.concat (map snd (group_add shared_nan grouped rec)))
    (List.concat (map snd grouped) ++ [rec]).
Proof.
  intros Hok Hapart. unfold group_add. fold (group_key_of rec).
  destruct (dict_get keys_eq grouped (group_key_of rec)) as [group|] eqn:E.
  - destruct (dict_set_split keys_eq grouped (group_key_of rec)
                (group ++ [rec]) E) as [d1 [k' [d2 [-> [Hk ->]]]]].
    split; [|split].
    + apply Forall_app in Hok. destruct Hok as [H1 H2].
      inversion H2 as [|? ? [r0 [rest [Hg [Hkey Hrest]]]] H3]; subst.
      apply Forall_app. split; [exact H1|]. constructor; [|exact H3].
      simpl in *. subst group. exists r0, (rest ++ [rec]). simpl.
      split; [reflexivity|]. split; [exact Hkey|].
      apply Forall_app. split; [exact Hrest|]. now constructor.
    + rewrite !map_app in *. exact Hapart.
    + rewrite !map_app, !concat_app. simpl.
      rewrite <- !app_assoc. apply Permutation_app_head.
      apply Permutation_app_head. apply Permutation_app_comm.
  - split; [|split].
    + apply Forall_app. split; [exact Hok|]. constructor; [|constructor].
      exists rec, []. simpl. auto.
    + rewrite map_app. simpl. apply keys_apart_snoc; [exact Hapart|].
      now apply dict_get_none_all.
    + rewrite map_app, concat_app. simpl. reflexivity.
Qed.

Lemma group_records_spec (rs : list record)
    (grouped : list (list value * list record)) :
  Forall (group_ok shared_nan) grouped ->
  keys_apart shared_nan (map fst grouped) ->
  Forall (group_ok shared_nan) (fold_left (group_add shared_nan) rs grouped) /\
  keys_apart shared_nan (map fst (fold_left (group_add shared_nan) rs grouped)) /\
  Permutation (List.concat (map snd (fold_left (group_add shared_nan) rs grouped)))
    (List.concat (map snd grouped) ++ rs).
Proof.
  revert grouped. induction rs as [|r rs IH]; intros grouped Hok Hapart; simpl.
  - rewrite app_nil_r. auto.
  - destruct (group_add_spec r Hok Hapart) as [H1 [H2 H3]].
    destruct (IH _ H1 H2) as [H4 [H5 H6]].
    split; [exact H4|]. split; [exact H5|].
    rewrite H6. apply (Permutation_app_tail rs) in H3.
    rewrite H3, <- app_assoc. reflexivity.
Qed.

Lemma group_records_ok (rs : list record) :
  Forall (group_ok shared_nan) (group_records shared_nan rs) /\
  keys_apart shared_nan (map fst (group_records shared_nan rs)) /\
  Permutation (List.concat (map snd (group_records shared_nan rs))) rs.
Proof.
  exact (@group_records_spec rs [] (Forall_nil _) (FOP_nil _)).
Qed.

(** X10: grouping is a partition: the groups together hold exactly the
    records of step 2, each once; no group is empty; a group carries the key
    of the record that opened it, and the key of every record that joined it
    is one the dictionary takes for that key: component by component the
    two are equal, or the same NaN object; and no group's key is taken for
    the key of a group before it. *)
Theorem group_records_partition (rs : list record) :
  Permutation (List.concat (map snd (group_records shared_nan rs))) rs /\
  Forall
    (fun kg =>
       exists r0 rest,
         snd kg = r0 :: rest /\ fst kg = key_of unique_key_cols r0 /\
         Forall
           (fun r =>
              tuple_key_eq shared_nan (key_of unique_key_cols r) (fst kg) = true)
           rest)
    (group_records shared_nan rs) /\
  ForallOrdPairs (fun a b => tuple_key_eq shared_nan b a = false)
    (map fst (group_records shared_nan rs)).
Proof.
  destruct (group_records_ok rs) as [H1 [H2 H3]].
  split; [exact H3 | split; [exact H1 | exact H2]].
Qed.

Lemma tuple_key_eq_refl_of (a b : list value) :
  keys_eq a b = true -> keys_eq a a = true.
Proof.
  intros H. apply (tuple_key_eq_trans _ _ _ H). now rewrite tuple_key_eq_sym.
Qed.

Lemma member_key (kg : list value * list record) (r : record) :
  group_ok shared_nan kg -> In r (snd kg) ->
  keys_eq (group_key_of r) (group_key_of r) = true ->
  keys_eq (group_key_of r) (fst kg) = true.
Proof.
  intros [r0 [rest [Hg [Hk Hrest]]]] Hin Hself. rewrite Hg in Hin.
  destruct Hin as [<- | Hin].
  - now rewrite Hk.
  - rewrite Forall_forall in Hrest. now apply Hrest.
Qed.

(** X11: no two groups have equal keys, and two records of step 2 whose
    keys are equal are in one and the same group. *)
Theorem group_records_keys (rs : list record) :
  ForallOrdPairs (fun a b => tuple_eq b a = false)
    (map fst (group_records shared_nan rs)) /\
  forall r1 r2,
    In r1 rs -> In r2 rs ->
    tuple_eq (key_of unique_key_cols r1) (key_of unique_key_cols r2) = true ->
    exists kg,
      In kg (group_records shared_nan rs) /\ In r1 (snd kg) /\ In r2 (snd kg).
Proof.
  destruct (group_records_ok rs) as [Hok [Hapart Hperm]].
  split; [exact (keys_apart_tuple_eq Hapart)|].
  intros r1 r2 H1 H2 E0.
  pose proof (tuple_eq_key_eq _ _ E0) as E. fold (group_key_of r1) in E.
  fold (group_key_of r2) in E.
  assert (Hfind : forall r, In r rs ->
            exists kg, In kg (group_records shared_nan rs) /\ In r (snd kg)).
  { intros r Hr. apply (Permutation_in _ (Permutation_sym Hperm)) in Hr.
    apply in_concat in Hr. destruct Hr as [g [Hg Hr]].
    apply in_map_iff in Hg. destruct Hg as [kg [<- Hkg]]. eauto. }
  destruct (Hfind r1 H1) as [kg1 [Hin1 Hm1]].
  destruct (Hfind r2 H2) as [kg2 [Hin2 Hm2]].
  rewrite Forall_forall in Hok.
  assert (K1 : keys_eq (group_key_of r1) (fst kg1) = true).
  { apply member_key; auto. exact (tuple_key_eq_refl_of _ _ E). }
  assert (K2 : keys_eq (group_key_of r2) (fst kg2) = true).
  { apply member_key; auto. rewrite tuple_key_eq_sym in E.
    exact (tuple_key_eq_refl_of _ _ E). }
  assert (K : keys_eq (fst kg1) (fst kg2) = true).
  { rewrite tuple_key_eq_sym in K1.
    exact (tuple_key_eq_trans _ _ _ K1 (tuple_key_eq_trans _ _ _ E K2)). }
  assert (Same : kg1 = kg2).
  { apply in_split in Hin1. destruct Hin1 as [l1 [l2 Hl]].
    rewrite Hl in Hin2, Hapart. rewrite map_app in Hapart. simpl in Hapart.
    apply in_app_or in Hin2. destruct Hin2 as [Hin2 | [Heq | Hin2]].
    - exfalso. apply in_split in Hin2. destruct Hin2 as [m1 [m2 ->]].
      rewrite map_app in Hapart. simpl in Hapart. rewrite <- app_assoc in Hapart.
      simpl in Hapart. unfold keys_apart in Hapart.
      apply ForallOrdPairs_app_r in Hapart.
      inversion Hapart as [|? ? Hhd _]; subst.
      rewrite Forall_forall in Hhd.
      specialize (Hhd (fst kg1)). rewrite Hhd in K; [discriminate|].
      apply in_or_app. right. now left.
    - exact Heq.
    - exfalso. unfold keys_apart in Hapart.
      apply ForallOrdPairs_app_r in Hapart.
      inversion Hapart as [|? ? Hhd _]; subst.
      rewrite Forall_forall in Hhd.
      specialize (Hhd (fst kg2) (in_map fst _ _ Hin2)).
      rewrite tuple_key_eq_sym in Hhd. congruence. }
  subst kg2. eauto.
Qed.

End GroupingFacts.

(** ** Step 3: consolidation *)

Section ConsolidationFacts.

Variable parse_float : string -> result float.
Variable shared_nan : bool.
Variable compensated : bool.

Local Abbreviation consolidate' := (consolidate parse_float compensated).
Local Abbreviation consolidate_all' :=
  (consolidate_all parse_float compensated).
Local Abbreviation money_ok :=
  (fun r : record =>
     truthy (rget r "PROMAX" VNone) = true ->
     is_ok (py_float parse_float (rget r "PROMAX" VNone)) = true).

Lemma consolidate_key (key : list value) (group : list record) (rec : record) :
  consolidate' key group = Ok rec ->
  key_of unique_key_cols rec = key /\ map fst rec = consolidated_fields.
Proof.
  unfold consolidate.
  destruct key as [|a [|b [|c [|d key]]]]; try discriminate.
  destruct (total_promax parse_float compensated group) as [total|e];
    [|discriminate].
  destruct (py_max date_key group) as [latest|e]; [|discriminate].
  simpl. intros H. injection H as <-. split; reflexivity.
Qed.

Lemma consolidate_all_keys (grouped : list (list value * list record))
    (recs : list record) :
  consolidate_all' grouped = Ok recs ->
  map (key_of unique_key_cols) recs = map fst grouped /\
  Forall (fun rec => map fst rec = consolidated_fields) recs.
Proof.
  revert recs. induction grouped as [|[key group] grouped IH]; intros recs; simpl.
  - intros H. injection H as <-. split; constructor.
  - destruct (consolidate' key group) as [rec|e] eqn:E; [|discriminate].
    destruct (consolidate_all' grouped) as [recs'|e]; [|discriminate].
    simpl. intros H. injection H as <-.
    destruct (consolidate_key _ _ E) as [Hk Hf].
    destruct (IH recs' eq_refl) as [IH1 IH2].
    split; [cbn [map fst]; now rewrite Hk, IH1 | now constructor].
Qed.

(** X12: when step 3 succeeds it yields one record per group, in the order
    of the groups; each has the fourteen columns in their fixed order and
    projects onto its group's key, so no two consolidated records have
    equal Group Keys. *)
Theorem consolidated_records_keys (rs : list record) (recs : list record) :
  consolidate_all' (group_records shared_nan rs) = Ok recs ->
  map (key_of unique_key_cols) recs = map fst (group_records shared_nan rs) /\
  Forall (fun rec => map fst rec = consolidated_fields) recs /\
  ForallOrdPairs (fun a b => tuple_eq b a = false)
    (map (key_of unique_key_cols) recs).
Proof.
  intros H. destruct (consolidate_all_keys _ H) as [Hk Hf].
  split; [exact Hk|]. split; [exact Hf|].
  rewrite Hk.
  exact (keys_apart_tuple_eq (proj1 (proj2 (group_records_ok shared_nan rs)))).
Qed.

Lemma consolidate_ok (a b c : value) (group : list record) (so : sort) :
  group <> [] ->
  Forall (fun r => sort_of (date_key r) = Some so) group ->
  Forall money_ok group ->
  exists rec, consolidate' [a; b; c] group = Ok rec.
Proof.
  intros Hne Hsort Hmoney.
  destruct (promax_terms_ok parse_float Hmoney) as [fs Hfs].
  destruct (@py_max_spec date_key so group Hne Hsort) as [pre [m [post [Hmax _]]]].
  unfold consolidate, total_promax. rewrite Hfs, Hmax. simpl. eauto.
Qed.

(** X13: step 3 succeeds, with one record per group, on records whose
    reference dates are all strings, or all numbers, and whose PROMAX
    converts to a float wherever it is true as a condition. *)
Theorem consolidation_succeeds (rs : list record) (so : sort) :
  Forall (fun r => sort_of (date_key r) = Some so) rs ->
  Forall money_ok rs ->
  exists recs,
    consolidate_all' (group_records shared_nan rs) = Ok recs /\
    List.length recs = List.length (group_records shared_nan rs).
Proof.
  intros Hsort Hmoney.
  destruct (group_records_ok shared_nan rs) as [Hok [_ Hperm]].
  assert (Hsub : forall kg r, In kg (group_records shared_nan rs) -> In r (snd kg) -> In r rs).
  { intros kg r Hkg Hr. apply (Permutation_in _ Hperm).
    apply in_concat. exists (snd kg). split; [now apply in_map | exact Hr]. }
  revert Hok Hsub. generalize (group_records shared_nan rs) as grouped.
  induction grouped as [|[key group] grouped IH]; intros Hok Hsub.
  - exists []. simpl. auto.
  - inversion Hok as [|? ? [r0 [rest [Hg [Hk _]]]] Hok']; subst.
    cbn [fst snd] in Hg, Hk.
    assert (Hin : forall r, In r group -> In r rs)
      by (intros r Hr; apply (Hsub (key, group)); [now left | exact Hr]).
    rewrite Forall_forall in Hsort, Hmoney.
    destruct (@consolidate_ok (rget r0 "Job Number" VNone)
                (rget r0 "Foreman" VNone) (rget r0 "Work Release" VNone)
                group so) as [rec Hrec].
    + rewrite Hg. discriminate.
    + apply Forall_forall. auto.
    + apply Forall_forall. auto.
    + destruct IH as [recs [Hrecs Hlen]];
        [exact Hok' | intros kg r Hkg; apply Hsub; now right |].
      cbn [consolidate_all]. rewrite Hk.
      change (group_key_of r0)
        with [rget r0 "Job Number" VNone; rget r0 "Foreman" VNone;
              rget r0 "Work Release" VNone].
      rewrite Hrec. cbn [bind]. rewrite Hrecs. cbn [bind].
      exists (rec :: recs). simpl. auto.
Qed.

Lemma py_gt_mixed (s : sort) (a b : value) :
  sort_of b = Some s -> sort_of a <> Some s -> py_gt a b = Raise TypeError.
Proof.
  destruct s, a, b; cbn [sort_of py_gt num_of]; intros Hb Ha;
    try discriminate; try reflexivity; congruence.
Qed.

Lemma max_loop_mixed (key : record -> value) (s : sort) (pre : list record)
    (x : record) (post : list record) (m : record) :
  sort_of (key m) = Some s ->
  Forall (fun r => sort_of (key r) = Some s) pre ->
  sort_of (key x) <> Some s ->
  max_loop key (pre ++ x :: post) m (key m) = Raise TypeError.
Proof.
  intros Hm Hpre Hx. revert m Hm.
  induction Hpre as [|r pre Hr _ IH]; intros m Hm; simpl.
  - now rewrite (@py_gt_mixed s (key x) (key m) Hm Hx).
  - destruct (py_gt_total _ _ Hr Hm) as [[|] Hb]; rewrite Hb; simpl; auto.
Qed.

(** X14: a group in which a record's reference date is not of the sort of
    the dates before it (a number after strings, a string after numbers, or
    [None]) cannot be consolidated: [max] raises [TypeError], which nothing
    in [main] catches. *)
Theorem mixed_dates_raise (a b c : value) (r0 : record) (pre : list record)
    (x : record) (post : list record) (so : sort) :
  Forall (fun r => sort_of (date_key r) = Some so) (r0 :: pre) ->
  sort_of (date_key x) <> Some so ->
  Forall money_ok (r0 :: pre ++ x :: post) ->
  consolidate' [a; b; c] (r0 :: pre ++ x :: post) = Raise TypeError /\
  forall before after,
    exists e,
      consolidate_all' (before ++ ([a; b; c], r0 :: pre ++ x :: post) :: after)
      = Raise e.
Proof.
  intros Hsort Hx Hmoney.
  assert (E : consolidate' [a; b; c] (r0 :: pre ++ x :: post) = Raise TypeError).
  { destruct (promax_terms_ok parse_float Hmoney) as [fs Hfs].
    inversion Hsort as [|? ? H0 Hpre]; subst.
    unfold consolidate, total_promax. rewrite Hfs. simpl.
    now rewrite (@max_loop_mixed date_key so pre x post r0 H0 Hpre Hx). }
  split; [exact E|].
  induction before as [|[k g] before IH]; intros after;
    cbn [app consolidate_all].
  - rewrite E. simpl. eauto.
  - destruct (consolidate' k g) as [rec|e]; cbn [bind]; [|eauto].
    destruct (IH after) as [e ->]. simpl. eauto.
Qed.

End ConsolidationFacts.

(** ** Step 4: the archive key set *)

Lemma archive_row_key_length (col_map : list (string * Z)) (r : row)
    (cols : list string) (k : list value) :
  archive_row_key col_map r cols = Ok k -> List.length k = List.length cols.
Proof.
  revert k. induction cols as [|col cols IH]; intros k; simpl.
  - intros H. now injection H as <-.
  - destruct (dict_get String.eqb col_map (archive_col_name col)) as [cid|];
      [destruct (get_column r cid); [|discriminate]|]; simpl;
      (destruct (archive_row_key col_map r cols) as [k'|e]; [|discriminate]);
      simpl; intros H; injection H as <-; simpl; f_equal; now apply IH.
Qed.

Lemma archive_keys_shape (col_map : list (string * Z)) (rs : list row)
    (cols : list string) :
  Forall (fun k => List.length k = List.length cols)
    (archive_keys_of col_map rs cols) /\
  ForallOrdPairs (fun a b => tuple_eq b a = false)
    (archive_keys_of col_map rs cols).
Proof.
  unfold archive_keys_of.
  assert (G : forall keys,
    Forall (fun k => List.length k = List.length cols) keys /\
    ForallOrdPairs (fun a b => tuple_eq b a = false) keys ->
    let keys' := fold_left
      (fun keys r =>
         match archive_row_key col_map r cols with
         | Ok key => set_add key keys
         | Raise _ => keys
         end) rs keys in
    Forall (fun k => List.length k = List.length cols) keys' /\
    ForallOrdPairs (fun a b => tuple_eq b a = false) keys').
  { induction rs as [|r rs IH]; intros keys H; simpl; [exact H|].
    apply IH. destruct H as [Hl Ha].
    destruct (archive_row_key col_map r cols) as [key|e] eqn:E; [|auto].
    unfold set_add. destruct (key_in key keys) eqn:K; [auto|]. split.
    - apply Forall_app. split; [exact Hl|]. constructor; [|constructor].
      now apply archive_row_key_length in E.
    - apply ForallOrdPairs_snoc; [exact Ha|]. intros k Hk.
      destruct (tuple_eq key k) eqn:T; [|reflexivity].
      assert (key_in key keys = true) by (apply key_in_spec; eauto).
      congruence. }
  apply G. split; constructor.
Qed.

(** X15: whatever the archive, the columns the key set is built on are
    never none and always Group Key columns; every key of the set has one
    component per such column, and no two keys of the set are equal. *)
Theorem archive_existing_keys_shape (ss : client) (archive_sheet_id : Z) :
  let keys := fst (get_archive_existing_keys ss archive_sheet_id unique_key_cols) in
  let effective_key_cols :=
    snd (get_archive_existing_keys ss archive_sheet_id unique_key_cols) in
  effective_key_cols <> [] /\
  incl effective_key_cols unique_key_cols /\
  Forall (fun k => List.length k = List.length effective_key_cols) keys /\
  ForallOrdPairs (fun a b => tuple_eq b a = false) keys.
Proof.
  unfold get_archive_existing_keys.
  destruct (get_sheet ss archive_sheet_id) as [sh|e]; simpl.
  - assert (E : effective_cols_of (title_map sh) unique_key_cols <> [] /\
                incl (effective_cols_of (title_map sh) unique_key_cols)
                  unique_key_cols).
    { unfold effective_cols_of.
      destruct (available_cols_of (title_map sh) unique_key_cols) as [|c l] eqn:A.
      - split; [discriminate | apply incl_refl].
      - split; [discriminate|]. rewrite <- A. unfold available_cols_of.
        apply incl_filter. }
    destruct E as [E1 E2].
    destruct (archive_keys_shape (title_map sh) (rows sh)
                (effective_cols_of (title_map sh) unique_key_cols)) as [S1 S2].
    auto.
  - split; [discriminate|]. split; [apply incl_refl|]. split; constructor.
Qed.

(** ** Steps 5 and 4 together: a written row read back *)

Lemma archive_names_apart :
  NoDup (map archive_col_name (map fst COLUMN_MAP)).
Proof.
  repeat constructor; simpl; intuition discriminate.
Qed.

Lemma NoDup_map_inj {A B} (f : A -> B) (l : list A) (a b : A) :
  NoDup (map f l) -> In a l -> In b l -> f a = f b -> a = b.
Proof.
  induction l as [|x l IH]; simpl; [tauto|].
  intros H. inversion H as [|? ? Hx Hl]; subst.
  intros [-> | Ha] [-> | Hb] E; auto.
  - exfalso. apply Hx. rewrite E. now apply in_map.
  - exfalso. apply Hx. rewrite <- E. now apply in_map.
Qed.

Lemma get_column_written (col_map : list (string * Z)) (rec : record)
    (col : string) (v : value) (cid : Z) :
  (forall c' v', In (c', v') rec ->
     dict_get String.eqb col_map (archive_col_name c') = Some cid -> c' = col) ->
  dict_get String.eqb rec col = Some v ->
  truthy v = true ->
  dict_get String.eqb col_map (archive_col_name col) = Some cid ->
  get_column (cells_of col_map rec) cid = Some (mk_cell cid v).
Proof.
  intros Honly Hget Hv Hcid. unfold get_column, cells_of.
  induction rec as [|[c0 v0] rec IH]; simpl in *; [discriminate|].
  destruct (String.eqb col c0) eqn:E.
  - apply String.eqb_eq in E. subst c0. injection Hget as ->.
    rewrite Hv, Hcid. simpl. now rewrite Z.eqb_refl.
  - assert (Hrest : find (fun c => column_id c =? cid)
                      (flat_map
                         (fun cv : string * value =>
                            let '(col0, val) := cv in
                            if truthy val
                            then match dict_get String.eqb col_map
                                         (archive_col_name col0) with
                                 | Some cid0 => [mk_cell cid0 val]
                                 | None => []
                                 end
                            else []) rec) = Some (mk_cell cid v)).
    { apply IH; [|exact Hget]. intros c' v' Hin. apply (Honly c' v'). now right. }
    destruct (truthy v0); [|exact Hrest].
    destruct (dict_get String.eqb col_map (archive_col_name c0)) as [cid0|] eqn:E0;
      [|exact Hrest].
    simpl. destruct (cid0 =? cid) eqn:Ec; [|exact Hrest].
    apply Z.eqb_eq in Ec. subst cid0.
    rewrite (Honly c0 v0 (or_introl eq_refl) E0), String.eqb_refl in E.
    discriminate.
Qed.

Lemma archive_row_key_written (col_map : list (string * Z)) (rec : record)
    (cols : list string) (r : row) :
  ids_distinct col_map ->
  incl (map fst rec) (map fst COLUMN_MAP) ->
  (forall col, In col cols ->
     In col (map fst COLUMN_MAP) /\
     truthy (rget rec col VNone) = true /\
     dict_mem String.eqb col_map (archive_col_name col) = true) ->
  holds_cells r (cells_of col_map rec) ->
  archive_row_key col_map r cols = Ok (key_of cols rec).
Proof.
  intros Hids Hfields Hcols Hholds.
  induction cols as [|col cols IH]; simpl; [reflexivity|].
  destruct (Hcols col (or_introl eq_refl)) as [Hcol [Hv Hmem]].
  unfold dict_mem in Hmem.
  destruct (dict_get String.eqb col_map (archive_col_name col)) as [cid|] eqn:Hcid;
    [|discriminate].
  assert (Hget : dict_get String.eqb rec col = Some (rget rec col VNone)).
  { unfold rget, dict_get_or in *.
    destruct (dict_get String.eqb rec col); [reflexivity | discriminate]. }
  assert (Hw : get_column (cells_of col_map rec) cid
               = Some (mk_cell cid (rget rec col VNone))).
  { apply get_column_written with (col := col); auto.
    intros c' v' Hin Hc'.
    apply (NoDup_map_inj archive_col_name (map fst COLUMN_MAP));
      [exact archive_names_apart | | exact Hcol |].
    - apply Hfields. now apply (in_map fst) in Hin.
    - exact (Hids _ _ _ Hc' Hcid). }
  unfold get_column in Hw. apply find_some in Hw. destruct Hw as [Hw _].
  apply Hholds in Hw. simpl in Hw. rewrite Hw. simpl.
  rewrite IH; [reflexivity|]. intros c Hc. apply Hcols. now right.
Qed.


(** X16: the read path undoes the write path on the key.  For a record
    over the destination columns and an archive whose column ids are
    distinct, an archive row that holds the cells written for the record
    yields, over key columns that the archive has and whose values in the
    record are true as conditions, exactly the record's own projection; the
    key set built from rows that include it then contains that projection,
    unless the projection does not equal itself. *)
Theorem written_row_reads_back (col_map : list (string * Z)) (rec : record)
    (cols : list string) (r : row) :
  ids_distinct col_map ->
  incl (map fst rec) (map fst COLUMN_MAP) ->
  (forall col, In col cols ->
     In col (map fst COLUMN_MAP) /\
     truthy (rget rec col VNone) = true /\
     dict_mem String.eqb col_map (archive_col_name col) = true) ->
  holds_cells r (cells_of col_map rec) ->
  archive_row_key col_map r cols = Ok (key_of cols rec) /\
  forall rs,
    In r rs -> tuple_eq (key_of cols rec) (key_of cols rec) = true ->
    key_in (key_of cols rec) (archive_keys_of col_map rs cols) = true.
Proof.
  intros Hids Hfields Hcols Hholds.
  pose proof (@archive_row_key_written col_map rec cols r Hids Hfields Hcols Hholds) as E.
  split; [exact E|].
  intros rs Hr Hself. apply key_in_archive_keys.
  exists r, (key_of cols rec). auto.
Qed.

Lemma title_map_ids_distinct (sh : sheet) :
  NoDup (map col_id (columns sh)) -> ids_distinct (title_map sh).
Proof.
  intros Hnd t1 t2 cid H1 H2. unfold title_map in *.
  apply (dict_get_of String.eqb String.eqb_eq) in H1, H2.
  assert (E : (t1, cid) = (t2, cid)).
  { apply (NoDup_map_inj snd
             (map (fun c => (col_title c, col_id c)) (columns sh)));
      [now rewrite map_map | exact H1 | exact H2 | reflexivity]. }
  now injection E.
Qed.

(** X17: deduplication sees what was written.  When the archive has at
    least one key column and distinct column ids, a record whose values in
    the effective key columns are true as conditions and equal to
    themselves is not new as soon as some archive row holds the cells
    written for it. *)
Theorem written_record_is_not_new (ss : client) (archive_sheet_id : Z)
    (sh : sheet) (r : row) (rec : record) (consolidated_records : list record) :
  get_sheet ss archive_sheet_id = Ok sh ->
  ids_distinct (title_map sh) ->
  available_cols_of (title_map sh) unique_key_cols <> [] ->
  incl (map fst rec) (map fst COLUMN_MAP) ->
  (forall col, In col (effective_cols_of (title_map sh) unique_key_cols) ->
               truthy (rget rec col VNone) = true) ->
  tuple_eq (key_of (effective_cols_of (title_map sh) unique_key_cols) rec)
    (key_of (effective_cols_of (title_map sh) unique_key_cols) rec) = true ->
  In r (rows sh) ->
  holds_cells r (cells_of (title_map sh) rec) ->
  ~ In rec (new_consolidated_rows_of ss archive_sheet_id consolidated_records).
Proof.
  intros Hget Hids Havail Hfields Htruthy Hself Hr Hholds Hnew.
  unfold new_consolidated_rows_of in Hnew.
  rewrite (get_archive_existing_keys_ok _ _ _ Hget) in Hnew.
  apply dedup_In in Hnew. destruct Hnew as [_ Hnew].
  assert (K : key_in
                (key_of (effective_cols_of (title_map sh) unique_key_cols) rec)
                (archive_keys_of (title_map sh) (rows sh)
                   (effective_cols_of (title_map sh) unique_key_cols)) = true).
  { apply key_in_archive_keys. exists r. eexists. split; [exact Hr|].
    split; [|exact Hself].
    apply archive_row_key_written; auto.
    intros col Hcol. split; [|split; [now apply Htruthy|]].
    - unfold effective_cols_of in Hcol.
      destruct (available_cols_of (title_map sh) unique_key_cols) eqn:A;
        [congruence|]. rewrite <- A in Hcol.
      apply filter_In in Hcol. destruct Hcol as [Hcol _].
      simpl in Hcol. simpl. intuition (subst; auto 20).
    - unfold effective_cols_of in Hcol.
      destruct (available_cols_of (title_map sh) unique_key_cols) eqn:A;
        [congruence|]. rewrite <- A in Hcol.
      apply filter_In in Hcol. tauto. }
  congruence.
Qed.

(** ** The run as a whole *)

Section MainFacts.

Variable parse_date : string -> result datetime.
Variable parse_float : string -> result float.
Variable repr_float : float -> string.
Variable iterrows : list record -> list record.
Variable shared_nan : bool.
Variable compensated : bool.

Local Abbreviation main' :=
  (main parse_date parse_float repr_float iterrows shared_nan compensated).

Lemma archive_operation_dry (cfg : config) (ss : client) (new_rows : list record) :
  DRY_RUN cfg = true ->
  archive_operation cfg ss new_rows = [EvSay (MsgDryRun (List.length new_rows))].
Proof. intros H. unfold archive_operation. now rewrite H. Qed.

(** The shapes a run can take. *)
Lemma main_cases (cfg : config) (today : datetime) :
  (exists m, main' cfg today = ([EvSay m], Ok tt) /\
             (m = MsgTokenUnset \/ m = MsgConnectError \/
              m = MsgDiscoveryError \/ m = MsgNoRecords)) \/
  (exists e, main' cfg today = ([], Raise e)) \/
  main' cfg today = ([EvArchiveKeysRead], Raise UnboundLocalError) \/
  (exists ss consolidated_records new_rows,
     connect cfg (API_TOKEN cfg) = Ok ss /\
     new_rows = new_consolidated_rows_of ss (ARCHIVE_SHEET_ID cfg)
                  consolidated_records /\
     new_rows <> [] /\
     main' cfg today =
     (EvArchiveKeysRead :: archive_operation cfg ss new_rows
      ++ [EvSay MsgCompleted], Ok tt)).
Proof.
  unfold main.
  destruct (String.eqb (API_TOKEN cfg) TOKEN_PLACEHOLDER); [left; eauto 6|].
  destruct (connect cfg (API_TOKEN cfg)) as [ss|e]; [|left; eauto 6].
  destruct (get_matching_sheets ss (REFERENCE_SHEET_ID cfg)) as [ms|e];
    [|left; eauto 6].
  destruct (records (pull_and_filter parse_date parse_float repr_float ss
                       today ms)) as [|r0 rs]; [left; eauto 7|].
  destruct (consolidate_all parse_float compensated
              (group_records shared_nan (iterrows (r0 :: rs))))
    as [recs|e]; [|right; left; eauto].
  unfold check_archive.
  destruct (new_consolidated_rows_of ss (ARCHIVE_SHEET_ID cfg) recs)
    as [|n0 ns] eqn:N; simpl.
  - right; right; left. reflexivity.
  - right; right; right. exists ss, recs, (n0 :: ns).
    split; [reflexivity|]. split; [now rewrite N|]. split; [discriminate|].
    reflexivity.
Qed.

(** X18: a dry run never opens the archive for writing and never sends
    rows, whatever the workspace holds. *)
Theorem dry_run_never_writes (cfg : config) (today : datetime) (ev : event) :
  DRY_RUN cfg = true ->
  In ev (fst (main' cfg today)) -> is_write ev = false.
Proof.
  intros Hdry Hin.
  destruct (main_cases cfg today)
    as [[m [E _]] | [[e E] | [E | [ss [recs [new_rows [_ [_ [_ E]]]]]]]]];
    rewrite E in Hin; simpl in Hin.
  - destruct Hin as [<- | []]. reflexivity.
  - destruct Hin.
  - destruct Hin as [<- | []]. reflexivity.
  - rewrite (archive_operation_dry _ _ _ Hdry) in Hin. simpl in Hin.
    destruct Hin as [<- | [<- | [<- | []]]]; reflexivity.
Qed.

(** X19: no run sends rows to the archive or reports rows added.  A run
    that opens the archive for writing is live, has read the archive keys
    first, fails on making the first row, reports the write error and
    returns normally with the closing message. *)
Theorem rows_are_never_sent (cfg : config) (today : datetime) :
  (forall new_sheet_rows,
     ~ In (EvAddRows new_sheet_rows) (fst (main' cfg today))) /\
  (forall n, ~ In (EvSay (MsgAdded n)) (fst (main' cfg today))) /\
  (In EvArchiveOpenForWrite (fst (main' cfg today)) ->
   DRY_RUN cfg = false /\
   main' cfg today =
   ([ EvArchiveKeysRead; EvArchiveOpenForWrite; EvSay MsgWriteError;
      EvSay MsgCompleted ], Ok tt)).
Proof.
  destruct (main_cases cfg today)
    as [[m [E Hm]] | [[e E] | [E | [ss [recs [new_rows [_ [_ [Hne E]]]]]]]]];
    rewrite E; cbn [fst].
  - split; [|split].
    + intros rows [H | []]. discriminate H.
    + intros n [H | []]. injection H as ->.
      destruct Hm as [Hm | [Hm | [Hm | Hm]]]; discriminate Hm.
    + intros [H | []]. discriminate H.
  - split; [|split]; simpl; intros; tauto.
  - split; [|split].
    + intros rows [H | []]. discriminate H.
    + intros n [H | []]. discriminate H.
    + intros [H | []]. discriminate H.
  - destruct new_rows as [|n0 ns]; [congruence|].
    destruct (DRY_RUN cfg) eqn:Hdry.
    + rewrite (archive_operation_dry _ _ _ Hdry). split; [|split].
      * intros rows [H | [H | [H | []]]]; discriminate H.
      * intros n [H | [H | [H | []]]]; discriminate H.
      * intros [H | [H | [H | []]]]; discriminate H.
    + rewrite (@archive_operation_live cfg ss n0 ns Hdry). split; [|split].
      * intros rows [H | [H | [H | [H | []]]]]; discriminate H.
      * intros n [H | [H | [H | [H | []]]]]; discriminate H.
      * intros _. split; reflexivity.
Qed.


(** X21: for a datetime from the seventh day of the calendar on,
    [week_start] returns a Sunday, at most six days back, at the same time
    of day, and returns a Sunday unchanged. *)
Theorem week_start_idempotent (today ws : datetime) :
  7 <= ordinal today <= MAXORDINAL ->
  week_start parse_date repr_float (inl today) = Ok ws ->
  weekday ws = 6 /\
  0 <= ordinal today - ordinal ws <= 6 /\
  micros ws = micros today /\
  week_start parse_date repr_float (inl ws) = Ok ws.
Proof.
  intros Hr Hws.
  destruct (week_start_sunday parse_date repr_float today Hr)
    as [d [E [Hsun [Hord [Hmic _]]]]].
  rewrite Hws in E. injection E as <-.
  split; [exact Hsun|]. split; [lia|]. split; [exact Hmic|].
  unfold week_start, sub_days. simpl. rewrite Hsun. simpl.
  rewrite Z.sub_0_r.
  assert (H1 : (0 <? ordinal ws) && (ordinal ws <=? MAXORDINAL) = true).
  { apply andb_true_iff. split; [apply Z.ltb_lt | apply Z.leb_le]; lia. }
  rewrite H1. now destruct ws.
Qed.

End MainFacts.

(** ** The further properties at work *)

Lemma fetch_all_sheets_pages_witness :
  fetch_all_sheets
    (map Ok [Example.full_page] ++ [Ok [mk_info 8 "Last"]; Raise ApiError]) [] =
  [] ++ List.concat [Example.full_page] ++ [mk_info 8 "Last"].
Proof.
  apply (@fetch_all_sheets_pages [Example.full_page]
           [Ok [mk_info 8 "Last"]; Raise ApiError] []).
  - repeat constructor.
  - unfold page_size. simpl. lia.
Defined.

Lemma reference_sheet_matches_itself_witness :
  exists matching_sheets,
    get_matching_sheets
      (Example.workspace (Example.crew_sheet []) (Ok Example.empty_archive)) 1
    = Ok matching_sheets /\
    In (mk_info 1 "Reference") matching_sheets.
Proof.
  apply (@reference_sheet_matches_itself
           (Example.workspace (Example.crew_sheet []) (Ok Example.empty_archive))
           1 Example.reference_sheet "Reference" eq_refl).
  cbn. tauto.
Defined.

Lemma wednesday_in_range : 7 <= ordinal Example.wednesday <= MAXORDINAL.
Proof. vm_compute. split; discriminate. Defined.

Lemma is_past_week_raises_iff_witness :
  is_past_week parse_iso_utc repr_any Example.wednesday
    (VStr "2024-01-03T00:00:00Z") = Raise TypeError.
Proof.
  apply (proj2 (@is_past_week_raises_iff parse_iso_utc repr_any
                  Example.wednesday (VStr "2024-01-03T00:00:00Z") TypeError
                  eq_refl wednesday_in_range)).
  split; [reflexivity|]. split; [reflexivity|].
  eexists. exists 0. split; reflexivity.
Defined.



Lemma unreadable_sheet_is_skipped_witness :
  pull_and_filter parse_iso_date parse_int_float repr_any
    (Example.workspace (Example.crew_sheet Example.j1_rows)
       (Ok Example.empty_archive))
    Example.wednesday ([mk_info 2 "Crew A"] ++ mk_info 4 "Gone" :: []) =
  pull_and_filter parse_iso_date parse_int_float repr_any
    (Example.workspace (Example.crew_sheet Example.j1_rows)
       (Ok Example.empty_archive))
    Example.wednesday ([mk_info 2 "Crew A"] ++ []).
Proof.
  exact (@unreadable_sheet_is_skipped parse_iso_date parse_int_float repr_any
           (Example.workspace (Example.crew_sheet Example.j1_rows)
              (Ok Example.empty_archive))
           Example.wednesday [mk_info 2 "Crew A"] (mk_info 4 "Gone") []
           ApiError eq_refl).
Defined.


Lemma group_records_keys_witness :
  exists kg,
    In kg (group_records true Example.j1_group) /\
    In (Example.dated 100 "2024-01-03" "Yard") (snd kg) /\
    In (Example.dated 25 "9/1/2023" "Shop") (snd kg).
Proof.
  apply (proj2 (group_records_keys true Example.j1_group)).
  - left. reflexivity.
  - right. right. left. reflexivity.
  - reflexivity.
Defined.

Lemma consolidated_records_keys_witness :
  map (key_of unique_key_cols)
    (match consolidate_all parse_int_float true
             (group_records true Example.j1_group) with
     | Ok recs => recs
     | Raise _ => []
     end)
  = map fst (group_records true Example.j1_group).
Proof.
  apply (@consolidated_records_keys parse_int_float true true
           Example.j1_group).
  vm_compute. reflexivity.
Defined.

Lemma consolidation_succeeds_witness :
  exists recs,
    consolidate_all parse_int_float true (group_records true Example.j1_group)
      = Ok recs /\
    List.length recs = List.length (group_records true Example.j1_group).
Proof.
  apply (@consolidation_succeeds parse_int_float true true Example.j1_group
           SStr).
  - repeat constructor.
  - repeat (constructor; [intros _; reflexivity|]). constructor.
Defined.

Lemma mixed_dates_raise_witness :
  consolidate parse_int_float true [VStr "J1"; VStr "A"; VStr "WR1"]
    (Example.dated 100 "2024-01-03" "Yard" :: [] ++ Example.number_dated :: [])
  = Raise TypeError.
Proof.
  apply (@mixed_dates_raise parse_int_float true (VStr "J1") (VStr "A") (VStr "WR1")
           (Example.dated 100 "2024-01-03" "Yard") [] Example.number_dated []
           SStr).
  - repeat constructor.
  - discriminate.
  - repeat (constructor; [intros _; reflexivity|]). constructor.
Defined.

Lemma j1_archived_ids_distinct : ids_distinct (title_map Example.j1_archived).
Proof.
  apply title_map_ids_distinct. cbn.
  repeat constructor; simpl; intuition discriminate.
Defined.

Lemma j1_record_fields : incl (map fst Example.j1_record) (map fst COLUMN_MAP).
Proof. intros x Hx. simpl in *. intuition. Defined.

Lemma j1_row_holds_cells :
  holds_cells Example.the_archive_row
    (cells_of (title_map Example.j1_archived) Example.j1_record).
Proof.
  intros c Hc. cbn in Hc.
  repeat (destruct Hc as [<- | Hc]; [reflexivity|]). destruct Hc.
Defined.

Lemma written_row_reads_back_witness :
  archive_row_key (title_map Example.j1_archived) Example.the_archive_row
    unique_key_cols
  = Ok (key_of unique_key_cols Example.j1_record).
Proof.
  refine (proj1 (@written_row_reads_back (title_map Example.j1_archived)
                   Example.j1_record unique_key_cols Example.the_archive_row
                   _ _ _ _)).
  - exact j1_archived_ids_distinct.
  - exact j1_record_fields.
  - intros col Hcol. simpl in Hcol.
    repeat (destruct Hcol as [<- | Hcol];
            [split; [simpl; tauto | split; reflexivity]|]).
    destruct Hcol.
  - exact j1_row_holds_cells.
Defined.

Lemma written_record_is_not_new_witness :
  ~ In Example.j1_record
      (new_consolidated_rows_of
         (Example.workspace (Example.crew_sheet []) (Ok Example.j1_archived))
         3 [Example.j1_record]).
Proof.
  apply (@written_record_is_not_new
           (Example.workspace (Example.crew_sheet []) (Ok Example.j1_archived))
           3 Example.j1_archived Example.the_archive_row Example.j1_record
           [Example.j1_record] eq_refl j1_archived_ids_distinct).
  - discriminate.
  - exact j1_record_fields.
  - intros col Hcol. cbn in Hcol.
    repeat (destruct Hcol as [<- | Hcol]; [reflexivity|]). destruct Hcol.
  - reflexivity.
  - left. reflexivity.
  - exact j1_row_holds_cells.
Defined.

Lemma dry_run_never_writes_witness :
  forallb (fun ev => negb (is_write ev))
    (fst (Example.run
            (Example.workspace (Example.crew_sheet Example.j1_rows)
               (Ok Example.empty_archive))
            true Example.wednesday)) = true.
Proof.
  apply forallb_forall. intros ev Hin. unfold Example.run in Hin.
  now rewrite (@dry_run_never_writes parse_iso_date parse_int_float repr_any
                 iterrows_id true true
                 (Example.configuration
                    (Example.workspace (Example.crew_sheet Example.j1_rows)
                       (Ok Example.empty_archive)) true)
                 Example.wednesday ev eq_refl Hin).
Defined.

Lemma rows_are_never_sent_witness :
  Example.run
    (Example.workspace (Example.crew_sheet Example.negative_rows)
       (Ok Example.empty_archive))
    false Example.wednesday
  = ([ EvArchiveKeysRead; EvArchiveOpenForWrite; EvSay MsgWriteError;
       EvSay MsgCompleted ], Ok tt).
Proof.
  unfold Example.run.
  apply (@rows_are_never_sent parse_iso_date parse_int_float repr_any
           iterrows_id true true
           (Example.configuration
              (Example.workspace (Example.crew_sheet Example.negative_rows)
                 (Ok Example.empty_archive)) false)
           Example.wednesday).
  vm_compute. tauto.
Defined.


Lemma week_start_idempotent_witness :
  week_start parse_iso_date repr_any (inl (naive 2024 1 7 15 30 0))
  = Ok (naive 2024 1 7 15 30 0).
Proof.
  exact (proj2 (proj2 (proj2
           (@week_start_idempotent parse_iso_date repr_any Example.wednesday
              (naive 2024 1 7 15 30 0) wednesday_in_range eq_refl)))).
Defined.

(** ** What depends on the interpreter and on the data frame *)

(** X22: the total of 0.1, 0.2 and 0.3 is 0.6 where [sum] compensates the
    rounding errors and 0.6000000000000001 where it adds plainly. *)
Theorem total_promax_rounding :
  total_promax parse_int_float true Example.tenths
    = Ok (VFloat 0x1.3333333333333p-1) /\
  total_promax parse_int_float false Example.tenths
    = Ok (VFloat 0x1.3333333333334p-1).
Proof. split; vm_compute; reflexivity. Qed.

(** X23: two rows whose Group Keys hold NaN have keys that are not equal;
    when the two NaNs are one object the dictionary takes the second key
    for the first and the rows form one group, and when they are an object
    each, either row opens a group of its own. *)
Theorem nan_keys_group_by_identity :
  tuple_eq (key_of unique_key_cols (Example.nan_keyed 1))
    (key_of unique_key_cols (Example.nan_keyed 2)) = false /\
  map snd (group_records true [Example.nan_keyed 1; Example.nan_keyed 2])
    = [[Example.nan_keyed 1; Example.nan_keyed 2]] /\
  map snd (group_records false [Example.nan_keyed 1; Example.nan_keyed 2])
    = [[Example.nan_keyed 1]; [Example.nan_keyed 2]].
Proof. repeat split; vm_compute; reflexivity. Qed.
